(** * DSA interview prep agent: progress tracking and session orchestration

    A shallow embedding of [agent.py]: the [ProgressTracker] (learner state,
    summary, topic recommendation), the two model-backed agents
    ([ProblemGeneratorAgent], [SolutionEvaluatorAgent]) and the coordinator
    [DSAInterviewPrepAgent], followed by the properties the specification
    states about them. *)

From Stdlib Require Import ZArith Ascii String List Bool Lia.
From Stdlib Require Import Uint63 PrimFloat SpecFloat FloatOps FloatAxioms.
From stdpp Require Import base option list gmap strings.

Local Open Scope string_scope.
Local Open Scope list_scope.
Local Open Scope Z_scope.

(** ** A state monad for the methods that read or write [self] *)

Definition State (S A : Type) : Type := S -> A * S.

Definition ret {S A} (a : A) : State S A := fun s => (a, s).

Definition bind {S A B} (m : State S A) (k : A -> State S B) : State S B :=
  fun s => let (a, s') := m s in k a s'.

Definition get {S} : State S S := fun s => (s, s).

Definition put {S} (s : S) : State S unit := fun _ => (tt, s).

Definition eval {S A} (m : State S A) (s : S) : A := fst (m s).

Definition exec {S A} (m : State S A) (s : S) : S := snd (m s).

#[global] Instance state_ret {S} : MRet (State S) := fun _ a => ret a.
#[global] Instance state_bind {S} : MBind (State S) := fun _ _ k m => bind m k.

(** ** Python numbers

    [accuracy] is the integer [0] when nothing was attempted and a binary64
    float otherwise, so the summary carries a value of either kind. *)

Inductive pynum : Type :=
  | PyInt (z : Z)
  | PyFloat (f : float).

(** [float(z)] for a count; exact below [2^53], correctly rounded below
    [2^63].  Larger counts are outside what the model covers. *)
Definition float_of_int (z : Z) : float :=
  if z <? 0 then PrimFloat.opp (PrimFloat.of_uint63 (Uint63.of_Z (- z)))
  else PrimFloat.of_uint63 (Uint63.of_Z z).

(** [a / b] on integers: true division.  Both operands convert exactly while
    they stay below [2^53], and the binary64 quotient of the two is then the
    correctly rounded quotient Python returns. *)
Definition truediv (a b : Z) : float :=
  PrimFloat.div (float_of_int a) (float_of_int b).

(** Nearest integer to [m * 2^e], ties to the even one. *)
Definition round_half_even (m e : Z) : Z :=
  if 0 <=? e then m * 2 ^ e
  else
    let d := 2 ^ (- e) in
    let q := m / d in
    let r := m mod d in
    match 2 * r ?= d with
    | Lt => q
    | Gt => q + 1
    | Eq => if Z.even q then q else q + 1
    end.

(** [round(x, 2)] on a float: the exact binary value is rounded to two
    decimals (ties to even) and the decimal is read back as the nearest
    float; zeros, infinities and nan are returned as they are. *)
Definition round2_float (x : float) : float :=
  match Prim2SF x with
  | S754_finite s m e =>
      let r := PrimFloat.div (float_of_int (round_half_even (100 * Z.pos m) e))
                             100%float in
      if s then PrimFloat.opp r else r
  | _ => x
  end.

(** [round(n, 2)]: an integer is returned unchanged. *)
Definition round2 (n : pynum) : pynum :=
  match n with
  | PyInt z => PyInt z
  | PyFloat f => PyFloat (round2_float f)
  end.

(** [n < k] for an integer literal [k]. *)
Definition num_lt_int (n : pynum) (k : Z) : bool :=
  match n with
  | PyInt z => z <? k
  | PyFloat f => PrimFloat.ltb f (float_of_int k)
  end.

(** ** ProgressTracker *)

Record Attempt : Type := {
  id : string;
  topic : string;
  difficulty : string;
  solved : bool;
  timestamp : string
}.

Record UserData : Type := {
  problems_solved : list Attempt;
  topics_covered : gset string;
  weak_areas : list string;
  streak_days : Z;
  total_problems : Z;
  last_session : option string
}.

(** The dictionary [get_progress_summary] returns.  [topics_covered] is
    [list(set)]: the members of the set, in the order the set yields them.
    [weak_areas] is the tracker's own list, not a copy; the methods below
    only ever append to it. *)
Record Summary : Type := {
  sum_total_problems : Z;
  sum_problems_solved : Z;
  sum_accuracy : pynum;
  sum_topics_covered : list string;
  sum_weak_areas : list string
}.

Module ProgressTracker.

(** [__init__] *)
Definition init : UserData := {|
  problems_solved := [];
  topics_covered := ∅;
  weak_areas := [];
  streak_days := 0;
  total_problems := 0;
  last_session := None
  |}.

(** [sum(1 for p in problems if p['solved'])] *)
Definition count_solved (problems : list Attempt) : Z :=
  fold_left Z.add (map (fun _ => 1) (filter (fun p => solved p = true) problems)) 0.

Definition get_progress_summary : State UserData Summary :=
  self ← get;
  let solved_count := count_solved (problems_solved self) in
  let accuracy :=
    if 0 <? total_problems self
    then PyFloat (PrimFloat.mul (truediv solved_count (total_problems self)) 100%float)
    else PyInt 0 in
  ret {| sum_total_problems := total_problems self;
         sum_problems_solved := solved_count;
         sum_accuracy := round2 accuracy;
         sum_topics_covered := elements (topics_covered self);
         sum_weak_areas := weak_areas self |}.

(** [now] is the value of [datetime.now().isoformat()] at the call. *)
Definition update_progress (now : string)
    (problem_id topic difficulty : string) (solved : bool)
    : State UserData Summary :=
  self ← get;
  let self1 := {|
    problems_solved := problems_solved self ++
      [ {| id := problem_id; topic := topic; difficulty := difficulty;
           solved := solved; timestamp := now |} ];
    topics_covered := {[ topic ]} ∪ topics_covered self;
    weak_areas := weak_areas self;
    streak_days := streak_days self;
    total_problems := total_problems self + 1;
    last_session := last_session self |} in
  let self2 :=
    if negb solved then
      if decide (topic ∈ weak_areas self1) then self1
      else {| problems_solved := problems_solved self1;
              topics_covered := topics_covered self1;
              weak_areas := weak_areas self1 ++ [topic];
              streak_days := streak_days self1;
              total_problems := total_problems self1;
              last_session := last_session self1 |}
    else self1 in
  put self2;;
  get_progress_summary.

Definition all_topics : list string :=
  ["Arrays"; "Linked Lists"; "Trees"; "Graphs"; "Dynamic Programming";
   "Backtracking"; "Greedy"; "Sorting"; "Searching"; "Strings"].

(** [l[0]]; [None] stands for the [IndexError] of an empty list. *)
Definition index0 (l : list string) : option string := l !! 0%nat.

Definition recommend_next_topic : State UserData (option string) :=
  self ← get;
  if bool_decide (weak_areas self ≠ []) then
    ret (index0 (weak_areas self))
  else
    let uncovered := filter (fun t => t ∉ topics_covered self) all_topics in
    ret (if bool_decide (uncovered ≠ []) then index0 uncovered
         else index0 all_topics).

End ProgressTracker.

(** ** The outside world: the clock and the model service

    The agents read [datetime.now()] and call [client.models.generate_content].
    Both are given by an environment indexed by the number of readings and
    requests made so far, so that every outcome of a call is covered by
    quantifying over the environment.  Text is held as the bytes of its
    UTF-8 encoding; what [str.lower] does beyond ASCII follows the Unicode
    tables of the runtime and is part of the environment too. *)

Inductive Reply : Type :=
  | Text (text : string)        (* [response.text] *)
  | Raises (message : string).  (* an exception [e], with [str(e)] *)

Record Env : Type := {
  isoformat : nat -> string;   (* k-th reading, [.isoformat()] *)
  strftime : nat -> string;    (* k-th reading, [.strftime('%Y%m%d%H%M%S')] *)
  generate_content : nat -> string -> string -> Reply;
                               (* k-th request: model, contents *)
  unicode_lower : string -> string
                               (* [s.lower()] for [s] not all ASCII *)
}.

(** Values held by the dictionaries passed between the agents. *)
Inductive value : Type :=
  | Str (s : string)
  | NoneV.

#[global] Instance value_eq_dec : EqDecision value.
Proof. solve_decision. Defined.

Abbreviation Dict := (gmap string value).

(** [str(v)], as an f-string renders it. *)
Definition format (v : value) : string :=
  match v with
  | Str s => s
  | NoneV => "None"
  end.

(** [d.get(k, default)] and [d.get(k)] *)
Definition dict_get_default (d : Dict) (k : string) (dflt : value) : value :=
  default dflt (d !! k).

Definition dict_get (d : Dict) (k : string) : value := dict_get_default d k NoneV.

(** [str.lower].  On text that is all ASCII it turns the letters A-Z into
    a-z and leaves every other character; on any other text the result is
    the runtime's. *)
Definition lower_ascii (c : ascii) : ascii :=
  let n := nat_of_ascii c in
  if (65 <=? n)%nat && (n <=? 90)%nat then ascii_of_nat (n + 32) else c.

Fixpoint lower_ascii_text (s : string) : string :=
  match s with
  | EmptyString => EmptyString
  | String c s' => String (lower_ascii c) (lower_ascii_text s')
  end.

Fixpoint is_ascii (s : string) : bool :=
  match s with
  | EmptyString => true
  | String c s' => (nat_of_ascii c <? 128)%nat && is_ascii s'
  end.

Definition lower (env : Env) (s : string) : string :=
  if is_ascii s then lower_ascii_text s else unicode_lower env s.

(** [str.replace(' ', '_')].  The byte 32 occurs in UTF-8 text only as the
    space itself, so the replacement is the same on bytes as on characters. *)
Fixpoint replace_space (s : string) : string :=
  match s with
  | EmptyString => EmptyString
  | String c s' =>
      String (if Ascii.eqb c " "%char then "_"%char else c) (replace_space s')
  end.

Definition nl : string := String (ascii_of_nat 10) EmptyString.

(** The state of a [DSAInterviewPrepAgent]: its tracker, and how many clock
    readings and model requests the process has made. *)
Record World : Type := {
  progress_tracker : UserData;
  clock : nat;
  requests : nat
}.

(** [datetime.now()]: the index of a fresh reading. *)
Definition now : State World nat :=
    w ← get;
    put {| progress_tracker := progress_tracker w;
           clock := S (clock w);
           requests := requests w |};;
    ret (clock w).

(** [self.client.models.generate_content(model=..., contents=...)] *)
Definition request (env : Env) (model contents : string) : State World Reply :=
    w ← get;
    put {| progress_tracker := progress_tracker w;
           clock := clock w;
           requests := S (requests w) |};;
    ret (generate_content env (requests w) model contents).

  (** A call of a [ProgressTracker] method on [self.progress_tracker]. *)
Definition tracker {A} (m : State UserData A) : State World A :=
    w ← get;
    let (a, ud) := m (progress_tracker w) in
    put {| progress_tracker := ud; clock := clock w; requests := requests w |};;
    ret a.

Definition model_name : string := "gemini-2.0-flash-exp".

Module ProblemGeneratorAgent.
Section WithEnv.

Variable env : Env.

Definition prompt (topic difficulty user_level : string) : string :=
    "You are an expert DSA problem creator for technical interviews." +:+ nl +:+
    "        " +:+ nl +:+
    "        Create a " +:+ difficulty +:+ " level " +:+ topic +:+
      " problem suitable for a " +:+ user_level +:+
      " programmer preparing for technical interviews." +:+ nl +:+
    "        " +:+ nl +:+
    "        Provide:" +:+ nl +:+
    "        1. Problem Title" +:+ nl +:+
    "        2. Problem Description (clear and concise)" +:+ nl +:+
    "        3. Input Format" +:+ nl +:+
    "        4. Output Format" +:+ nl +:+
    "        5. Constraints" +:+ nl +:+
    "        6. Sample Test Cases (2-3 examples with explanations)" +:+ nl +:+
    "        7. Hints (2-3 hints without giving away the solution)" +:+ nl +:+
    "        " +:+ nl +:+
    "        Format the response as JSON with keys: title, description, input_format, output_format, constraints, test_cases, hints" +:+ nl +:+
    "        ".

Definition generate_problem (topic difficulty user_level : string)
      : State World Dict :=
    response ← request env model_name (prompt topic difficulty user_level);
    match response with
    | Text problem_text =>
        t_id ← now;
        t_gen ← now;
        let problem : Dict :=
          <[ "id" := Str (replace_space (lower env topic) +:+ "_" +:+ strftime env t_id) ]>
          (<[ "topic" := Str topic ]>
          (<[ "difficulty" := Str difficulty ]>
          (<[ "content" := Str problem_text ]>
          (<[ "generated_at" := Str (isoformat env t_gen) ]> ∅)))) in
        ret problem
    | Raises e =>
        ret (<[ "error" := Str e ]> ∅)
    end.

End WithEnv.
End ProblemGeneratorAgent.

Module SolutionEvaluatorAgent.
Section WithEnv.

Variable env : Env.

Definition prompt (problem : Dict) (solution_code language : string) : string :=
    "You are an expert code reviewer for technical interviews." +:+ nl +:+
    "        " +:+ nl +:+
    "        Problem:" +:+ nl +:+
    "        " +:+ format (dict_get_default problem "content" (Str "")) +:+ nl +:+
    "        " +:+ nl +:+
    "        Submitted Solution (" +:+ language +:+ "):" +:+ nl +:+
    "        ```" +:+ language +:+ nl +:+
    "        " +:+ solution_code +:+ nl +:+
    "        ```" +:+ nl +:+
    "        " +:+ nl +:+
    "        Evaluate the solution and provide:" +:+ nl +:+
    "        1. Correctness (Does it solve the problem?)" +:+ nl +:+
    "        2. Time Complexity" +:+ nl +:+
    "        3. Space Complexity" +:+ nl +:+
    "        4. Code Quality (readability, style)" +:+ nl +:+
    "        5. Edge Cases Handled" +:+ nl +:+
    "        6. Suggestions for Improvement" +:+ nl +:+
    "        7. Overall Score (0-100)" +:+ nl +:+
    "        " +:+ nl +:+
    "        Format as JSON with keys: correctness, time_complexity, space_complexity, code_quality, edge_cases, suggestions, score" +:+ nl +:+
    "        ".

Definition evaluate_solution (problem : Dict) (solution_code language : string)
      : State World Dict :=
    response ← request env model_name (prompt problem solution_code language);
    match response with
    | Text feedback =>
        t_eval ← now;
        let evaluation : Dict :=
          <[ "problem_id" := dict_get problem "id" ]>
          (<[ "feedback" := Str feedback ]>
          (<[ "evaluated_at" := Str (isoformat env t_eval) ]> ∅)) in
        ret evaluation
    | Raises e =>
        ret (<[ "error" := Str e ]> ∅)
    end.

End WithEnv.
End SolutionEvaluatorAgent.


(** ** DSAInterviewPrepAgent: the coordinator *)

(** The dictionaries the public operations return. *)
Record SessionStarted : Type := {
  ss_status : string;
  ss_problem : Dict;
  ss_progress : Summary
}.

Record SolutionEvaluated : Type := {
  se_status : string;
  se_evaluation : Dict;
  se_progress : Summary
}.

Record StudyPlan : Type := {
  current_progress : Summary;
  recommended_topic : string;
  plan_weak_areas : list string;
  suggestions : list string
}.

Module DSAInterviewPrepAgent.
Section WithEnv.

Variable env : Env.

(** [__init__]: a fresh tracker; nothing read or requested yet. *)
Definition init : World :=
  {| progress_tracker := ProgressTracker.init; clock := 0%nat; requests := 0%nat |}.

(** [None] stands for an exception raised by [recommend_next_topic] and
    passed on to the caller. *)
Definition start_session (user_level : string) : State World (option SessionStarted) :=
  recommended ← tracker ProgressTracker.recommend_next_topic;
  match recommended with
  | None => mret None
  | Some topic =>
      problem ← ProblemGeneratorAgent.generate_problem env topic "Medium" user_level;
      progress ← tracker ProgressTracker.get_progress_summary;
      mret (Some {| ss_status := "session_started";
                    ss_problem := problem;
                    ss_progress := progress |})
  end.

Definition submit_solution (problem_id solution_code language : string)
    : State World SolutionEvaluated :=
  let problem : Dict :=
    <[ "id" := Str problem_id ]>
    (<[ "content" := Str "Problem content placeholder" ]> ∅) in
  evaluation ← SolutionEvaluatorAgent.evaluate_solution env problem solution_code language;
  let solved := true in
  t ← now;
  tracker (ProgressTracker.update_progress (isoformat env t)
             problem_id "Dynamic Programming" "Medium" solved);;
  progress ← tracker ProgressTracker.get_progress_summary;
  mret {| se_status := "solution_evaluated";
          se_evaluation := evaluation;
          se_progress := progress |}.

Definition _generate_study_suggestions (progress : Summary) : list string :=
  let suggestions : list string := [] in
  let suggestions :=
    if sum_total_problems progress <? 10
    then suggestions ++ ["Build consistency by solving at least 2 problems daily"]
    else suggestions in
  let suggestions :=
    if num_lt_int (sum_accuracy progress) 50
    then suggestions ++ ["Focus on understanding concepts before attempting more problems"]
    else suggestions in
  let suggestions :=
    match sum_weak_areas progress with
    | w :: _ => suggestions ++ ["Review " +:+ w +:+ " fundamentals"]
    | [] => suggestions
    end in
  suggestions.

Definition get_study_plan : State World (option StudyPlan) :=
  progress ← tracker ProgressTracker.get_progress_summary;
  recommended ← tracker ProgressTracker.recommend_next_topic;
  match recommended with
  | None => mret None
  | Some next_topic =>
      mret (Some {| current_progress := progress;
                    recommended_topic := next_topic;
                    plan_weak_areas := sum_weak_areas progress;
                    suggestions := _generate_study_suggestions progress |})
  end.

End WithEnv.
End DSAInterviewPrepAgent.


(** * Vocabulary of the properties *)

(** ** Sequences of [update_progress] calls *)

Record Call : Type := {
  call_now : string;
  call_problem_id : string;
  call_topic : string;
  call_difficulty : string;
  call_solved : bool
}.

Definition record (ud : UserData) (c : Call) : UserData :=
  exec (ProgressTracker.update_progress (call_now c) (call_problem_id c)
          (call_topic c) (call_difficulty c) (call_solved c)) ud.

Definition record_all (calls : list Call) (ud : UserData) : UserData :=
  fold_left record calls ud.

Definition attempt_of (c : Call) : Attempt :=
  {| id := call_problem_id c; topic := call_topic c;
     difficulty := call_difficulty c; solved := call_solved c;
     timestamp := call_now c |}.

(** ** The invariant of the progress state *)

Record Inv (ud : UserData) : Prop := {
  inv_history : ∀ a, a ∈ problems_solved ud → topic a ∈ topics_covered ud;
  inv_weak_covered : ∀ t, t ∈ weak_areas ud → t ∈ topics_covered ud;
  inv_weak_nodup : NoDup (weak_areas ud);
  inv_counts :
    0 <= sum_problems_solved (eval ProgressTracker.get_progress_summary ud)
      <= sum_total_problems (eval ProgressTracker.get_progress_summary ud)
}.

(** The clock reading [update_progress] stamps the attempt with: the next
    one, after the reading the evaluator takes when the model answers. *)
Definition submit_reading (env : Env) (problem_id solution_code language : string) (w : World) : nat :=
  let problem : Dict :=
    <[ "id" := Str problem_id ]>
    (<[ "content" := Str "Problem content placeholder" ]> ∅) in
  match generate_content env (requests w) model_name
          (SolutionEvaluatorAgent.prompt problem solution_code language) with
  | Text _ => S (clock w)
  | Raises _ => clock w
  end.

(** ** The suggestion rules, as the specification tabulates them *)

Definition rule_consistency (p : Summary) : option string :=
  if sum_total_problems p <? 10
  then Some "Build consistency by solving at least 2 problems daily"
  else None.

Definition rule_concepts (p : Summary) : option string :=
  if num_lt_int (sum_accuracy p) 50
  then Some "Focus on understanding concepts before attempting more problems"
  else None.

Definition rule_review (p : Summary) : option string :=
  match sum_weak_areas p with
  | w :: _ => Some ("Review " +:+ w +:+ " fundamentals")
  | [] => None
  end.

Definition rule_table : list (Summary → option string) :=
  [rule_consistency; rule_concepts; rule_review].

(** Every rule in table order; a rule contributes when its condition holds. *)
Definition apply_rules (p : Summary) : list string :=
  omap (fun rule => rule p) rule_table.

(** Three attempts, one solved, the two failures on Graphs. *)
Definition three_attempts : list Call :=
  [ {| call_now := "2025-01-01T09:00:00"; call_problem_id := "graphs_1";
       call_topic := "Graphs"; call_difficulty := "Medium"; call_solved := false |};
    {| call_now := "2025-01-01T09:30:00"; call_problem_id := "arrays_1";
       call_topic := "Arrays"; call_difficulty := "Easy"; call_solved := true |};
    {| call_now := "2025-01-01T10:00:00"; call_problem_id := "graphs_2";
       call_topic := "Graphs"; call_difficulty := "Medium"; call_solved := false |} ].

Definition after_three_attempts : World :=
  {| progress_tracker := record_all three_attempts ProgressTracker.init;
     clock := 3%nat; requests := 3%nat |}.

(** ** Two model services

    Every topic of the runs below is ASCII, so [unicode_lower] is never
    consulted in them. *)

(** A service that writes a problem, then reviews a solution and finds it
    incorrect. *)
Definition rejecting_service : Env :=
  {| isoformat := fun _ => "2025-01-01T09:00:00";
     strftime := fun _ => "20250101090000";
     generate_content := fun k _ _ =>
       match k with
       | O => Text "title: Two Sum"
       | _ => Text "correctness: incorrect; score: 10"
       end;
     unicode_lower := fun s => s |}.

(** A service that writes a problem and then fails on the review request. *)
Definition failing_service : Env :=
  {| isoformat := fun _ => "2025-01-01T09:00:00";
     strftime := fun _ => "20250101090000";
     generate_content := fun k _ _ =>
       match k with
       | O => Text "title: Two Sum"
       | _ => Raises "503 UNAVAILABLE"
       end;
     unicode_lower := fun s => s |}.

(** ** Sequences of coordinator operations *)

Inductive Op : Type :=
  | StartSession (user_level : string)
  | SubmitSolution (problem_id solution_code language : string)
  | GetStudyPlan.

Definition run_op (env : Env) (w : World) (op : Op) : World :=
  match op with
  | StartSession user_level =>
      exec (DSAInterviewPrepAgent.start_session env user_level) w
  | SubmitSolution problem_id solution_code language =>
      exec (DSAInterviewPrepAgent.submit_solution env problem_id solution_code language) w
  | GetStudyPlan => exec DSAInterviewPrepAgent.get_study_plan w
  end.

Definition run_ops (env : Env) (ops : list Op) (w : World) : World :=
  fold_left (run_op env) ops w.

Definition is_submit (op : Op) : bool :=
  match op with
  | SubmitSolution _ _ _ => true
  | _ => false
  end.

(** ** The tracker of a coordinator

    Nothing failed, and every attempt is the one [submit_solution] writes. *)
Definition submitted_only (ud : UserData) : Prop :=
  weak_areas ud = [] ∧
  topics_covered ud ⊆ {[ "Dynamic Programming" ]} ∧
  (∀ a, a ∈ problems_solved ud →
        topic a = "Dynamic Programming" ∧ difficulty a = "Medium" ∧ solved a = true) ∧
  streak_days ud = 0 ∧
  last_session ud = None.

(** ** The script under [if __name__ == "__main__"]

    A session is started for an intermediate user and the study plan is
    asked for; an exception from the first call ends the script. *)
Definition main (env : Env) : State World (option (SessionStarted * StudyPlan)) :=
  session ← DSAInterviewPrepAgent.start_session env "intermediate";
  match session with
  | None => mret None
  | Some session =>
      study_plan ← DSAInterviewPrepAgent.get_study_plan;
      mret (pair session <$> study_plan)
  end.

(** ** Accuracy, as the specification words it

    [solvedCount / totalProblems * 100] rounded to two decimal places, taken
    over the rationals: the count of hundredths nearest to
    [10000 * solved / total].  A tie goes upwards when [ties_up] is set, and
    to the even neighbour otherwise. *)
Definition exact_accuracy_hundredths (ties_up : bool) (solved total : Z) : Z :=
  let n := 10000 * solved in
  let q := n / total in
  let r := n mod total in
  match 2 * r ?= total with
  | Lt => q
  | Gt => q + 1
  | Eq => if ties_up || negb (Z.even q) then q + 1 else q
  end.

(** The float a count of hundredths reads as, [q / 100]: what [round2_float]
    returns for a finite argument that rounds to [q] hundredths. *)
Definition hundredths (q : Z) : float :=
  PrimFloat.div (float_of_int q) 100%float.

(** [0 <= x <= 100] on floats. *)
Definition in_percent_range (x : float) : bool :=
  PrimFloat.leb 0%float x && PrimFloat.leb x 100%float.

(** 160 attempts on Arrays, the first 23 of them solved. *)
Definition solved_23_of_160 : list Call :=
  repeat {| call_now := "2025-01-01T09:00:00"; call_problem_id := "arrays_1";
            call_topic := "Arrays"; call_difficulty := "Easy";
            call_solved := true |} 23
  ++ repeat {| call_now := "2025-01-01T09:00:00"; call_problem_id := "arrays_2";
               call_topic := "Arrays"; call_difficulty := "Easy";
               call_solved := false |} 137.

(** ** Binary64 values under a bound

    A rounding record carries no discarded bit. *)
Definition rec_exact (mrs : shr_record) : Prop :=
  shr_r mrs = false ∧ shr_s mrs = false.

(** [f] is [+0] or a positive finite float [m * 2^e] with [e <= k] and
    [m * 2^e <= b * 2^k]. *)
Definition sf_le (b k : Z) (f : spec_float) : Prop :=
  match f with
  | S754_zero s => s = false
  | S754_finite false m e => e <= k ∧ Z.pos m <= b * 2 ^ (k - e)
  | _ => False
  end.


(** * Properties *)

(** ** Running the state monad *)

Ltac run_state :=
  unfold eval, exec, tracker, now, request;
  unfold mbind, mret, state_bind, state_ret, bind, ret, get, put;
  cbn [fst snd].

Lemma eval_exec_pair {S A} (m : State S A) (s : S) : m s = (eval m s, exec m s).
Proof. unfold eval, exec. by destruct (m s). Qed.

Lemma bind_run {S A B} (m : State S A) (k : A → State S B) (s : S) :
  (x ← m; k x) s = k (eval m s) (exec m s).
Proof. run_state. by destruct (m s). Qed.

Lemma tracker_run {A} (m : State UserData A) (w : World) :
  tracker m w =
  (eval m (progress_tracker w),
   {| progress_tracker := exec m (progress_tracker w);
      clock := clock w; requests := requests w |}).
Proof. run_state. by destruct (m (progress_tracker w)). Qed.

Lemma eval_tracker {A} (m : State UserData A) (w : World) :
  eval (tracker m) w = eval m (progress_tracker w).
Proof. unfold eval at 1. by rewrite tracker_run. Qed.

Lemma exec_tracker {A} (m : State UserData A) (w : World) :
  exec (tracker m) w =
  {| progress_tracker := exec m (progress_tracker w);
     clock := clock w; requests := requests w |}.
Proof. unfold exec at 1. by rewrite tracker_run. Qed.

(** ** ProgressTracker: what one [update_progress] does to each field *)

Section TrackerFacts.

Import ProgressTracker.

Variables (ts problem_id t d : string) (s : bool) (ud : UserData).

Let ud' : UserData := exec (update_progress ts problem_id t d s) ud.

Lemma summary_reads_only : exec get_progress_summary ud = ud.
Proof. reflexivity. Qed.

Lemma recommend_reads_only : exec recommend_next_topic ud = ud.
Proof.
  unfold recommend_next_topic. run_state.
  by destruct (bool_decide (weak_areas ud ≠ [])).
Qed.

Lemma update_history :
  problems_solved ud' =
  problems_solved ud ++
    [ {| id := problem_id; topic := t; difficulty := d; solved := s; timestamp := ts |} ].
Proof.
  subst ud'. unfold update_progress, get_progress_summary. run_state.
  destruct s; cbn; [done|]. by case_decide.
Qed.

Lemma update_total : total_problems ud' = total_problems ud + 1.
Proof.
  subst ud'. unfold update_progress, get_progress_summary. run_state.
  destruct s; cbn; [done|]. by case_decide.
Qed.

Lemma update_topics : topics_covered ud' = {[ t ]} ∪ topics_covered ud.
Proof.
  subst ud'. unfold update_progress, get_progress_summary. run_state.
  destruct s; cbn; [done|]. by case_decide.
Qed.

Lemma update_weak :
  weak_areas ud' =
  if s then weak_areas ud
  else if decide (t ∈ weak_areas ud) then weak_areas ud else weak_areas ud ++ [t].
Proof.
  subst ud'. unfold update_progress, get_progress_summary. run_state.
  destruct s; cbn; [done|]. by case_decide.
Qed.

Lemma update_returns_summary :
  eval (update_progress ts problem_id t d s) ud = eval get_progress_summary ud'.
Proof.
  subst ud'. unfold update_progress, get_progress_summary. run_state.
  destruct s; cbn; [done|]. by case_decide.
Qed.

End TrackerFacts.

(** [sum(1 for ...)] counts the solved attempts. *)
Lemma fold_add_ones (l : list Attempt) (acc : Z) :
  fold_left Z.add (map (fun _ => 1) l) acc = acc + Z.of_nat (length l).
Proof.
  revert acc. induction l as [|a l IH]; intros acc; cbn [map fold_left length].
  - lia.
  - rewrite IH. lia.
Qed.

Lemma count_solved_length (l : list Attempt) :
  ProgressTracker.count_solved l =
  Z.of_nat (length (filter (fun p => solved p = true) l)).
Proof. unfold ProgressTracker.count_solved. by rewrite fold_add_ones. Qed.

Lemma count_solved_app (l : list Attempt) (a : Attempt) :
  ProgressTracker.count_solved (l ++ [a]) =
  ProgressTracker.count_solved l + (if solved a then 1 else 0).
Proof.
  rewrite !count_solved_length, filter_app, length_app.
  rewrite filter_cons, filter_nil.
  destruct (solved a); case_decide; try done; cbn [length]; lia.
Qed.

Lemma count_solved_bounds (l : list Attempt) :
  0 <= ProgressTracker.count_solved l <= Z.of_nat (length l).
Proof.
  rewrite count_solved_length.
  pose proof (length_filter (fun p => solved p = true) l). lia.
Qed.

Lemma record_all_history (calls : list Call) (ud : UserData) :
  problems_solved (record_all calls ud) = problems_solved ud ++ map attempt_of calls.
Proof.
  revert ud. induction calls as [|c calls IH]; intros ud; cbn [record_all fold_left map].
  - by rewrite app_nil_r.
  - fold (record_all calls (record ud c)). rewrite IH.
    unfold record at 1. rewrite update_history.
    by rewrite <- app_assoc.
Qed.

Lemma record_all_total (calls : list Call) (ud : UserData) :
  total_problems (record_all calls ud) = total_problems ud + Z.of_nat (length calls).
Proof.
  revert ud. induction calls as [|c calls IH]; intros ud; cbn [record_all fold_left length].
  - lia.
  - fold (record_all calls (record ud c)). rewrite IH.
    unfold record. rewrite update_total. lia.
Qed.

Lemma filter_solved_map (calls : list Call) :
  filter (fun p => solved p = true) (map attempt_of calls) =
  map attempt_of (filter (fun c => call_solved c = true) calls).
Proof.
  induction calls as [|c calls IH]; [done|].
  cbn [map]. rewrite !filter_cons, IH. cbn [attempt_of solved].
  by repeat case_decide.
Qed.

(** ** The summary, field by field *)

Lemma summary_solved (ud : UserData) :
  sum_problems_solved (eval ProgressTracker.get_progress_summary ud) =
  ProgressTracker.count_solved (problems_solved ud).
Proof. reflexivity. Qed.

Lemma summary_total (ud : UserData) :
  sum_total_problems (eval ProgressTracker.get_progress_summary ud) = total_problems ud.
Proof. reflexivity. Qed.

Lemma summary_weak (ud : UserData) :
  sum_weak_areas (eval ProgressTracker.get_progress_summary ud) = weak_areas ud.
Proof. reflexivity. Qed.

Lemma summary_topics (ud : UserData) (t : string) :
  t ∈ sum_topics_covered (eval ProgressTracker.get_progress_summary ud) ↔
  t ∈ topics_covered ud.
Proof.
  change (t ∈ elements (topics_covered ud) ↔ t ∈ topics_covered ud).
  apply elem_of_elements.
Qed.

Lemma Inv_init : Inv ProgressTracker.init.
Proof.
  split.
  - intros a Ha. by apply elem_of_nil in Ha.
  - intros t Ht. by apply elem_of_nil in Ht.
  - constructor.
  - change (0 <= ProgressTracker.count_solved [] <= 0).
    rewrite count_solved_length, filter_nil. cbn. lia.
Qed.

Lemma Inv_update (ts problem_id t d : string) (s : bool) (ud : UserData) :
  Inv ud → Inv (exec (ProgressTracker.update_progress ts problem_id t d s) ud).
Proof.
  intros [Hh Hw Hn Hcount]. split.
  - clear Hcount. intros a. rewrite update_history, update_topics.
    rewrite elem_of_app, list_elem_of_singleton.
    intros [Ha | ->]; [specialize (Hh a Ha); set_solver | cbn; set_solver].
  - clear Hcount. intros u. rewrite update_weak, update_topics.
    destruct s; [intros Hu; specialize (Hw u Hu); set_solver|].
    case_decide; [intros Hu; specialize (Hw u Hu); set_solver|].
    rewrite elem_of_app, list_elem_of_singleton.
    intros [Hu | ->]; [specialize (Hw u Hu); set_solver | set_solver].
  - rewrite update_weak. destruct s; [done|]. case_decide; [done|].
    apply NoDup_app. split; [done|]. split; [|apply NoDup_singleton].
    intros u Hu Hu'. apply list_elem_of_singleton in Hu'. by subst.
  - rewrite summary_solved, summary_total in Hcount |- *.
    rewrite update_history, update_total, count_solved_app.
    cbn [solved]. destruct s; lia.
Qed.

(** ** What the coordinator does to the tracker *)

Section CoordinatorFacts.

Import DSAInterviewPrepAgent.

Variable env : Env.

Lemma submit_solution_tracker (problem_id solution_code language : string) (w : World) :
  progress_tracker (exec (submit_solution env problem_id solution_code language) w) =
  exec (ProgressTracker.update_progress
          (isoformat env (submit_reading env problem_id solution_code language w))
          problem_id "Dynamic Programming" "Medium" true)
       (progress_tracker w).
Proof.
  unfold submit_solution, submit_reading, SolutionEvaluatorAgent.evaluate_solution.
  run_state.
  by destruct (generate_content env _ _ _).
Qed.

Lemma recommend_is_Some (ud : UserData) :
  is_Some (eval ProgressTracker.recommend_next_topic ud).
Proof.
  unfold ProgressTracker.recommend_next_topic. run_state.
  destruct (weak_areas ud) as [|w ws] eqn:Hw.
  - rewrite bool_decide_eq_false_2 by (intros H; by apply H). cbn [fst].
    destruct (filter _ ProgressTracker.all_topics) as [|u us] eqn:Hu.
    + rewrite bool_decide_eq_false_2 by (intros H; by apply H). by eexists.
    + rewrite bool_decide_eq_true_2 by done. by eexists.
  - rewrite bool_decide_eq_true_2 by done. by eexists.
Qed.

Lemma world_eta (w : World) :
  {| progress_tracker := progress_tracker w; clock := clock w; requests := requests w |} = w.
Proof. by destruct w. Qed.

Lemma generate_problem_tracker (topic difficulty user_level : string) (w : World) :
  progress_tracker
    (exec (ProblemGeneratorAgent.generate_problem env topic difficulty user_level) w) =
  progress_tracker w.
Proof.
  unfold ProblemGeneratorAgent.generate_problem. run_state.
  by destruct (generate_content env _ _ _).
Qed.

Lemma start_session_tracker (user_level : string) (w : World) :
  progress_tracker (exec (start_session env user_level) w) = progress_tracker w.
Proof.
  unfold start_session, exec at 1. rewrite bind_run, eval_tracker, exec_tracker.
  rewrite recommend_reads_only, world_eta.
  destruct (eval ProgressTracker.recommend_next_topic (progress_tracker w)); [|done].
  rewrite bind_run, bind_run, exec_tracker. cbn.
  apply generate_problem_tracker.
Qed.

Lemma start_session_result (user_level : string) (w : World) :
  ∃ r, eval (start_session env user_level) w = Some r ∧
       ss_status r = "session_started" ∧
       ss_progress r = eval ProgressTracker.get_progress_summary (progress_tracker w).
Proof.
  unfold start_session, eval at 1. rewrite bind_run, eval_tracker, exec_tracker.
  rewrite recommend_reads_only, world_eta.
  destruct (recommend_is_Some (progress_tracker w)) as [t ->].
  rewrite bind_run, bind_run, eval_tracker, generate_problem_tracker.
  eexists. split; [reflexivity|]. by split.
Qed.

Lemma get_study_plan_reads_only (w : World) : exec get_study_plan w = w.
Proof.
  unfold get_study_plan, exec at 1. rewrite bind_run, exec_tracker.
  rewrite summary_reads_only, world_eta.
  rewrite bind_run, exec_tracker, recommend_reads_only, world_eta.
  by destruct (eval (tracker ProgressTracker.recommend_next_topic) w).
Qed.

Lemma get_study_plan_result (w : World) :
  ∃ plan, eval get_study_plan w = Some plan ∧
    current_progress plan = eval ProgressTracker.get_progress_summary (progress_tracker w) ∧
    plan_weak_areas plan = weak_areas (progress_tracker w) ∧
    suggestions plan = _generate_study_suggestions (current_progress plan).
Proof.
  unfold get_study_plan, eval at 1. rewrite bind_run, exec_tracker.
  rewrite summary_reads_only, world_eta.
  rewrite bind_run, exec_tracker, recommend_reads_only, world_eta.
  rewrite !eval_tracker.
  destruct (recommend_is_Some (progress_tracker w)) as [t ->].
  eexists. split; [reflexivity|]. by repeat split.
Qed.

End CoordinatorFacts.

(** ** Recommendation: scanning the catalog *)

Lemma filter_none {A} (P : A → Prop) `{∀ x, Decision (P x)} (l : list A) :
  (∀ x, x ∈ l → ¬ P x) → filter P l = [].
Proof.
  induction l as [|x l IH]; intros Hl; [done|].
  rewrite filter_cons_False by (apply Hl; left).
  apply IH. intros y Hy. apply Hl. by right.
Qed.

Lemma filter_first {A} (P : A → Prop) `{∀ x, Decision (P x)} (pre post : list A) (t : A) :
  (∀ x, x ∈ pre → ¬ P x) → P t →
  filter P (pre ++ t :: post) = t :: filter P post.
Proof.
  intros Hpre Ht. rewrite filter_app, filter_none by done.
  by rewrite filter_cons_True.
Qed.

(** ** Accuracy *)

(** With nothing attempted the accuracy is the integer [0]; no division is
    evaluated. *)
Lemma accuracy_of_no_attempts (ud : UserData) :
  total_problems ud <= 0 →
  sum_accuracy (eval ProgressTracker.get_progress_summary ud) = PyInt 0.
Proof.
  intros Hle. unfold ProgressTracker.get_progress_summary. run_state.
  cbn [sum_accuracy]. by rewrite (proj2 (Z.ltb_ge 0 (total_problems ud)) Hle).
Qed.

(** Otherwise it is the float [solved_count / total_problems * 100], rounded
    by [round(_, 2)]. *)
Lemma accuracy_of_attempts (ud : UserData) :
  0 < total_problems ud →
  sum_accuracy (eval ProgressTracker.get_progress_summary ud) =
  PyFloat (round2_float
             (PrimFloat.mul
                (truediv (ProgressTracker.count_solved (problems_solved ud))
                         (total_problems ud))
                100%float)).
Proof.
  intros Hlt. unfold ProgressTracker.get_progress_summary. run_state.
  cbn [sum_accuracy]. by rewrite (proj2 (Z.ltb_lt 0 (total_problems ud)) Hlt).
Qed.

(** ** Binary64: the accuracy of a reachable state

    The float operations are read through their specification over
    [spec_float].  Rounding to nearest never crosses a bound that is itself
    representable; counts below [2^53] convert exactly; so the quotient of
    [solved <= total] is at most one, and a hundred times it at most 100. *)

(** *** Right shifts of a rounding record *)

Lemma shr_1_spec (mrs : shr_record) :
  0 <= shr_m mrs ->
  shr_m (shr_1 mrs) = shr_m mrs / 2 /\
  (rec_exact mrs -> shr_m mrs mod 2 = 0 -> rec_exact (shr_1 mrs)).
Proof.
  destruct mrs as [m r s]. cbn [shr_m]. intros Hm.
  destruct m as [|[p|p|]|p]; try lia; cbn [shr_1 shr_m].
  - split; [reflexivity|]. intros [Hr Hs] _. cbn in Hr, Hs. subst. split; reflexivity.
  - split; [rewrite Pos2Z.inj_xI; apply Z.div_unique with 1; lia|].
    intros _ H. rewrite Pos2Z.inj_xI in H.
    replace (2 * Z.pos p + 1) with (1 + Z.pos p * 2) in H by lia.
    rewrite Z.mod_add in H by lia. discriminate H.
  - split; [rewrite Pos2Z.inj_xO; apply Z.div_unique with 0; lia|].
    intros [Hr Hs] _. cbn in Hr, Hs. subst. split; reflexivity.
  - split; [reflexivity|]. intros _ H. discriminate H.
Qed.

Lemma mod_mul_split (m a b : Z) :
  0 < a -> 0 < b -> m mod (a * b) = 0 -> m mod a = 0 /\ (m / a) mod b = 0.
Proof.
  intros Ha Hb H.
  apply Z.mod_divide in H; [|lia]. destruct H as [k Hk]. subst m. split.
  - apply Z.mod_divide; [lia|]. exists (k * b). lia.
  - replace (k * (a * b)) with (k * b * a) by lia.
    rewrite Z.div_mul by lia. apply Z.mod_divide; [lia|]. exists k. lia.
Qed.

Lemma iter_shr_1_spec (p : positive) (mrs : shr_record) :
  0 <= shr_m mrs ->
  shr_m (SpecFloat.iter_pos shr_1 p mrs) = shr_m mrs / 2 ^ Z.pos p /\
  (rec_exact mrs -> shr_m mrs mod 2 ^ Z.pos p = 0 -> rec_exact (SpecFloat.iter_pos shr_1 p mrs)).
Proof.
  revert mrs. induction p as [p IH|p IH|]; intros mrs Hm.
  - cbn [SpecFloat.iter_pos].
    destruct (shr_1_spec mrs Hm) as [H1 E1].
    assert (Hm1 : 0 <= shr_m (shr_1 mrs)) by (rewrite H1; apply Z.div_pos; lia).
    destruct (IH _ Hm1) as [H2 E2].
    assert (Hm2 : 0 <= shr_m (SpecFloat.iter_pos shr_1 p (shr_1 mrs)))
      by (rewrite H2; apply Z.div_pos; [lia|apply Z.pow_pos_nonneg; lia]).
    destruct (IH _ Hm2) as [H3 E3].
    assert (Hpow : 2 ^ Z.pos p~1 = 2 * (2 ^ Z.pos p * 2 ^ Z.pos p)).
    { replace (Z.pos p~1) with (1 + (Z.pos p + Z.pos p)) by lia.
      rewrite !Z.pow_add_r, Z.pow_1_r by lia. reflexivity. }
    assert (Hp : 0 < 2 ^ Z.pos p) by (apply Z.pow_pos_nonneg; lia).
    split.
    + rewrite H3, H2, H1, Hpow. rewrite !Z.div_div by lia. reflexivity.
    + intros Hex Hmod. rewrite Hpow in Hmod.
      apply mod_mul_split in Hmod as [Ha Hb]; [|lia|lia].
      apply mod_mul_split in Hb as [Hb Hc]; [|lia|lia].
      apply E3.
      * apply E2; [by apply E1|]. by rewrite H1.
      * by rewrite H2, H1.
  - cbn [SpecFloat.iter_pos].
    destruct (IH _ Hm) as [H2 E2].
    assert (Hm2 : 0 <= shr_m (SpecFloat.iter_pos shr_1 p mrs))
      by (rewrite H2; apply Z.div_pos; [lia|apply Z.pow_pos_nonneg; lia]).
    destruct (IH _ Hm2) as [H3 E3].
    assert (Hpow : 2 ^ Z.pos p~0 = 2 ^ Z.pos p * 2 ^ Z.pos p).
    { replace (Z.pos p~0) with (Z.pos p + Z.pos p) by lia.
      rewrite Z.pow_add_r by lia. reflexivity. }
    assert (Hp : 0 < 2 ^ Z.pos p) by (apply Z.pow_pos_nonneg; lia).
    split.
    + rewrite H3, H2, Hpow. rewrite Z.div_div by lia. reflexivity.
    + intros Hex Hmod. rewrite Hpow in Hmod.
      apply mod_mul_split in Hmod as [Ha Hb]; [|lia|lia].
      apply E3; [by apply E2|]. by rewrite H2.
  - cbn [SpecFloat.iter_pos]. change (2 ^ 1) with 2. apply shr_1_spec. exact Hm.
Qed.

(** *** The number of binary digits *)

Lemma digits2_pos_size (p : positive) : digits2_pos p = Pos.size p.
Proof. induction p as [p IH|p IH|]; cbn; by rewrite ?IH. Qed.

Lemma Zdigits2_gt (m : Z) : 0 <= m -> m < 2 ^ Zdigits2 m.
Proof.
  destruct m as [|p|p]; [done| |lia]. intros _. cbn [Zdigits2].
  rewrite digits2_pos_size.
  pose proof (Pos.size_gt p) as H.
  apply Pos2Z.pos_lt_pos in H. by rewrite Pos2Z.inj_pow in H.
Qed.

Lemma Zdigits2_nonneg (m : Z) : 0 <= Zdigits2 m.
Proof. destruct m; cbn [Zdigits2]; lia. Qed.

Lemma Zdigits2_le (m n : Z) : 0 <= m -> 0 <= n -> m < 2 ^ n -> Zdigits2 m <= n.
Proof.
  destruct m as [|p|p]; [cbn [Zdigits2]; lia| |lia]. intros _ Hn Hlt. cbn [Zdigits2].
  rewrite digits2_pos_size.
  pose proof (Pos.size_le p) as H.
  apply Pos2Z.pos_le_pos in H. rewrite Pos2Z.inj_pow in H.
  change (Z.pos 2) with 2 in H.
  destruct (Z_le_gt_dec (Z.pos (Pos.size p)) n) as [|Hgt]; [done|exfalso].
  assert (2 ^ (n + 1) <= 2 ^ Z.pos (Pos.size p)) by (apply Z.pow_le_mono_r; lia).
  rewrite Z.pow_add_r, Z.pow_1_r in H0 by lia. lia.
Qed.

Lemma Zdigits2_shift (p d : positive) :
  Zdigits2 (Z.pos (Pos.iter xO p d)) = Zdigits2 (Z.pos p) + Z.pos d.
Proof.
  cbn [Zdigits2]. induction d as [|d IH] using Pos.peano_ind.
  - cbn. lia.
  - rewrite Pos.iter_succ. cbn [digits2_pos]. lia.
Qed.

Lemma shift_value (p d : positive) : Z.pos (Pos.iter xO p d) = Z.pos p * 2 ^ Z.pos d.
Proof.
  induction d as [|d IH] using Pos.peano_ind.
  - cbn. lia.
  - rewrite Pos.iter_succ, Pos2Z.inj_xO, IH, Pos2Z.inj_succ, Z.pow_succ_r by lia. lia.
Qed.

(** *** One rounding shift *)

Lemma loc_of_shr_record_of_loc (m : Z) (l : location) :
  loc_of_shr_record (shr_record_of_loc m l) = l.
Proof. by destruct l as [|[]]. Qed.

Lemma shr_m_record_of_loc (m : Z) (l : location) : shr_m (shr_record_of_loc m l) = m.
Proof. by destruct l as [|[]]. Qed.

Lemma rec_exact_loc (mrs : shr_record) : rec_exact mrs -> loc_of_shr_record mrs = loc_Exact.
Proof. destruct mrs as [m r s]. intros [Hr Hs]. cbn in Hr, Hs. by subst. Qed.

Lemma shr_fexp_spec (m e : Z) (l : location) :
  0 <= m ->
  let e' := Z.max e (fexp prec emax (Zdigits2 m + e)) in
  snd (shr_fexp prec emax m e l) = e' /\
  shr_m (fst (shr_fexp prec emax m e l)) = m / 2 ^ (e' - e) /\
  (l = loc_Exact -> m mod 2 ^ (e' - e) = 0 ->
   loc_of_shr_record (fst (shr_fexp prec emax m e l)) = loc_Exact).
Proof.
  intros Hm e'. unfold shr_fexp, shr.
  destruct (fexp prec emax (Zdigits2 m + e) - e) as [|n|n] eqn:Hn.
  - assert (He : e' - e = 0) by lia. rewrite He. cbn [fst snd].
    rewrite shr_m_record_of_loc, loc_of_shr_record_of_loc, Z.pow_0_r, Z.div_1_r.
    split; [lia|]. by split.
  - assert (He : e' - e = Z.pos n) by lia. rewrite He. cbn [fst snd].
    destruct (iter_shr_1_spec n (shr_record_of_loc m l)) as [H1 H2];
      [by rewrite shr_m_record_of_loc|].
    rewrite shr_m_record_of_loc in H1, H2.
    split; [lia|]. split; [done|].
    intros -> Hmod. apply rec_exact_loc, H2; [by split|done].
  - assert (He : e' - e = 0) by lia. rewrite He. cbn [fst snd].
    rewrite shr_m_record_of_loc, loc_of_shr_record_of_loc, Z.pow_0_r, Z.div_1_r.
    split; [lia|]. by split.
Qed.

Lemma round_nearest_even_bounds (m : Z) (l : location) :
  m <= round_nearest_even m l <= m + 1.
Proof. destruct l as [|[]]; cbn; try destruct (Z.even m); lia. Qed.

Lemma fexp_mono (a b : Z) : a <= b -> fexp prec emax a <= fexp prec emax b.
Proof. unfold fexp. lia. Qed.

(** *** Rounding keeps an upper bound [b * 2 ^ k] that is representable *)

Lemma pow_split (a b : Z) : 0 <= a -> 0 <= b -> 2 ^ (a + b) = 2 ^ a * 2 ^ b.
Proof. intros. by rewrite Z.pow_add_r. Qed.

Lemma bound_digits (b k m e : Z) :
  0 < b -> 0 <= m -> e <= k -> m <= b * 2 ^ (k - e) ->
  Zdigits2 m + e <= Zdigits2 b + k.
Proof.
  intros Hb Hm He Hle.
  pose proof (Zdigits2_gt b ltac:(lia)) as Hd.
  pose proof (Zdigits2_nonneg b) as Hd0.
  assert (Hp : 0 < 2 ^ (k - e)) by (apply Z.pow_pos_nonneg; lia).
  assert (m < 2 ^ (Zdigits2 b + (k - e))).
  { rewrite pow_split by lia. nia. }
  pose proof (Zdigits2_le m (Zdigits2 b + (k - e)) Hm ltac:(lia) H). lia.
Qed.

Lemma shift_bound (b k e e' m : Z) :
  0 < b -> 0 <= m -> e <= e' -> e' <= k -> m <= b * 2 ^ (k - e) ->
  m / 2 ^ (e' - e) <= b * 2 ^ (k - e') /\
  (m / 2 ^ (e' - e) = b * 2 ^ (k - e') ->
   m = b * 2 ^ (k - e) /\ m mod 2 ^ (e' - e) = 0).
Proof.
  intros Hb Hm He He' Hle.
  assert (Hp : 0 < 2 ^ (e' - e)) by (apply Z.pow_pos_nonneg; lia).
  assert (Hq : 0 < 2 ^ (k - e')) by (apply Z.pow_pos_nonneg; lia).
  assert (Hsplit : 2 ^ (k - e) = 2 ^ (k - e') * 2 ^ (e' - e)).
  { rewrite <- pow_split by lia. f_equal. lia. }
  rewrite Hsplit in *.
  pose proof (Z.div_mod m (2 ^ (e' - e)) ltac:(lia)) as Hdm.
  pose proof (Z.mod_pos_bound m (2 ^ (e' - e)) Hp) as Hmod.
  set (q := m / 2 ^ (e' - e)) in *. set (r := m mod 2 ^ (e' - e)) in *.
  set (P := 2 ^ (e' - e)) in *. set (Q := 2 ^ (k - e')) in *.
  split; [nia|]. intros Heq. split; nia.
Qed.

Lemma binary_round_aux_le (b k mx ex : Z) (lx : location) :
  0 < b -> 0 <= mx -> ex <= k ->
  fexp prec emax (Zdigits2 b + k) <= k -> k <= emax - prec ->
  mx < b * 2 ^ (k - ex) \/ (mx = b * 2 ^ (k - ex) /\ lx = loc_Exact) ->
  sf_le b k (binary_round_aux prec emax false mx ex lx).
Proof.
  intros Hb Hmx Hex Hfexp Hk Hbound. unfold binary_round_aux.
  destruct (shr_fexp_spec mx ex lx Hmx) as (He1 & Hm1 & Hl1).
  destruct (shr_fexp prec emax mx ex lx) as [mrs1 e1]. cbn [fst snd] in *.
  assert (Hle : mx <= b * 2 ^ (k - ex)) by lia.
  pose proof (bound_digits b k mx ex Hb Hmx Hex Hle) as Hd1.
  pose proof (fexp_mono _ _ Hd1) as Hf1.
  set (E1 := Z.max ex (fexp prec emax (Zdigits2 mx + ex))) in *.
  subst e1.
  assert (Hex1 : ex <= E1) by lia. assert (He1k : E1 <= k) by lia.
  destruct (shift_bound b k ex E1 mx Hb Hmx Hex1 He1k Hle) as [Hs1 Hs1eq].
  rewrite <- Hm1 in Hs1, Hs1eq.
  assert (Hm1pos : 0 <= shr_m mrs1).
  { rewrite Hm1. apply Z.div_pos; [done|]. apply Z.pow_pos_nonneg; lia. }
  pose proof (round_nearest_even_bounds (shr_m mrs1) (loc_of_shr_record mrs1)) as Hr.
  assert (Hr' : round_nearest_even (shr_m mrs1) (loc_of_shr_record mrs1)
                <= b * 2 ^ (k - E1)).
  { destruct (Z.eq_dec (shr_m mrs1) (b * 2 ^ (k - E1))) as [Heq|Hne]; [|lia].
    destruct (Hs1eq Heq) as [Hmxeq Hmod].
    destruct Hbound as [Hlt|[_ ->]]; [lia|].
    rewrite Hl1 by done. cbn. lia. }
  set (m1 := round_nearest_even (shr_m mrs1) (loc_of_shr_record mrs1)) in *.
  assert (Hm1' : 0 <= m1) by lia.
  destruct (shr_fexp_spec m1 E1 loc_Exact Hm1') as (He2 & Hm2 & _).
  destruct (shr_fexp prec emax m1 E1 loc_Exact) as [mrs2 e2]. cbn [fst snd] in *.
  pose proof (bound_digits b k m1 E1 Hb Hm1' He1k Hr') as Hd2.
  pose proof (fexp_mono _ _ Hd2) as Hf2.
  set (E2 := Z.max E1 (fexp prec emax (Zdigits2 m1 + E1))) in *.
  subst e2.
  assert (HE12 : E1 <= E2) by lia. assert (He2k : E2 <= k) by lia.
  destruct (shift_bound b k E1 E2 m1 Hb Hm1' HE12 He2k Hr') as [Hs2 _].
  rewrite <- Hm2 in Hs2.
  assert (Hm2pos : 0 <= shr_m mrs2).
  { rewrite Hm2. apply Z.div_pos; [done|]. apply Z.pow_pos_nonneg; lia. }
  destruct (shr_m mrs2) as [|m|m]; [done| |lia].
  assert (Hleb : (E2 <=? emax - prec) = true) by (apply Z.leb_le; lia).
  rewrite Hleb. cbn. split; [lia|done].
Qed.

(** *** Counts convert exactly *)

Lemma float_of_int_zero : Prim2SF (float_of_int 0) = S754_zero false.
Proof. reflexivity. Qed.

Lemma float_of_int_exact (z : Z) :
  0 < z < 2 ^ 53 ->
  exists m, Prim2SF (float_of_int z) = S754_finite false m (Zdigits2 z - 53) /\
            Z.pos m = z * 2 ^ (53 - Zdigits2 z).
Proof.
  intros Hz. unfold float_of_int.
  replace (z <? 0) with false by (symmetry; apply Z.ltb_ge; lia).
  rewrite of_uint63_spec, Uint63.of_Z_spec.
  rewrite Z.mod_small by (change wB with (2 ^ 63); change (2 ^ 53) with 9007199254740992 in Hz;
                          change (2 ^ 63) with 9223372036854775808; lia).
  destruct z as [|p|p]; [lia| |lia].
  pose proof (Zdigits2_le (Z.pos p) 53 ltac:(lia) ltac:(lia) ltac:(lia)) as Hd.
  cbn [Zdigits2] in *.
  unfold binary_normalize, binary_round.
  assert (Hfexp : fexp prec emax (Z.pos (digits2_pos p) + 0) = Z.pos (digits2_pos p) - 53).
  { unfold fexp, SpecFloat.emin, emax, prec. lia. }
  rewrite Hfexp. unfold shl_align.
  assert (Haux : forall mz : positive,
    Zdigits2 (Z.pos mz) = 53 -> Z.pos (digits2_pos p) - 53 <= 0 ->
    binary_round_aux prec emax false (Z.pos mz) (Z.pos (digits2_pos p) - 53) loc_Exact
    = S754_finite false mz (Z.pos (digits2_pos p) - 53)).
  { intros mz Hmz He. set (e := Z.pos (digits2_pos p) - 53) in *.
    unfold binary_round_aux.
    assert (Hmax : forall m, Zdigits2 m = 53 -> Z.max e (fexp prec emax (Zdigits2 m + e)) = e).
    { intros m ->. unfold fexp, SpecFloat.emin, emax, prec. lia. }
    destruct (shr_fexp_spec (Z.pos mz) e loc_Exact ltac:(lia)) as (He1 & Hm1 & Hl1).
    rewrite (Hmax _ Hmz) in He1, Hm1, Hl1.
    rewrite Z.sub_diag, Z.pow_0_r in Hm1, Hl1. rewrite Z.div_1_r in Hm1.
    specialize (Hl1 eq_refl (Z.mod_1_r _)).
    destruct (shr_fexp prec emax (Z.pos mz) e loc_Exact) as [mrs1 e1].
    cbn [fst snd] in *. subst e1. rewrite Hm1, Hl1. cbn [round_nearest_even].
    destruct (shr_fexp_spec (Z.pos mz) e loc_Exact ltac:(lia)) as (He2 & Hm2 & _).
    rewrite (Hmax _ Hmz) in He2, Hm2.
    rewrite Z.sub_diag, Z.pow_0_r, Z.div_1_r in Hm2.
    destruct (shr_fexp prec emax (Z.pos mz) e loc_Exact) as [mrs2 e2].
    cbn [fst snd] in *. subst e2. rewrite Hm2.
    replace (e <=? emax - prec) with true; [done|].
    symmetry. apply Z.leb_le. unfold emax, prec. lia. }
  rewrite Z.sub_0_r.
  destruct (Z.pos (digits2_pos p) - 53) as [|d|d] eqn:He.
  - exists p. rewrite Haux by (cbn [Zdigits2]; lia).
    split; [done|].
    replace (53 - Z.pos (digits2_pos p)) with 0 by lia. lia.
  - lia.
  - exists (Pos.iter xO p d).
    rewrite Haux by (rewrite ?Zdigits2_shift; cbn [Zdigits2]; lia).
    split; [done|].
    rewrite shift_value. f_equal. f_equal. lia.
Qed.

(** *** A quotient of counts is at most one, its hundredfold at most 100 *)

Lemma Zdigits2_mono (s t : Z) : 0 <= s -> s <= t -> Zdigits2 s <= Zdigits2 t.
Proof.
  intros Hs Hst. apply Zdigits2_le; [done|apply Zdigits2_nonneg|].
  pose proof (Zdigits2_gt t ltac:(lia)). lia.
Qed.

Lemma new_location_zero (n : Z) : new_location n 0 = loc_Exact.
Proof.
  unfold new_location, new_location_even, new_location_odd.
  by destruct (Z.even n).
Qed.

Lemma truediv_le_one (s t : Z) :
  0 <= s -> s <= t -> 0 < t -> t < 2 ^ 53 ->
  sf_le 1 0 (Prim2SF (truediv s t)).
Proof.
  intros Hs Hst Ht Hsmall. unfold truediv. rewrite div_spec.
  destruct (float_of_int_exact t ltac:(lia)) as (mt & -> & Hmt).
  destruct (Z.eq_dec s 0) as [->|Hs0].
  { by rewrite float_of_int_zero. }
  destruct (float_of_int_exact s ltac:(lia)) as (ms & -> & Hms).
  pose proof (Zdigits2_mono s t Hs Hst) as Hdig.
  pose proof (Zdigits2_le t 53 ltac:(lia) ltac:(lia) Hsmall) as Hdt.
  set (es := Zdigits2 s - 53) in *. set (et := Zdigits2 t - 53) in *.
  unfold SF64div, SFdiv, SFdiv_core_binary. cbv beta iota zeta. cbn [xorb].
  set (e' := Z.min (fexp prec emax (Zdigits2 (Z.pos ms) + es - (Zdigits2 (Z.pos mt) + et)))
                   (es - et)).
  assert (He' : e' <= es - et) by lia.
  assert (Hs' : 0 <= es - et - e') by lia.
  set (m' := match es - et - e' with
             | 0 => Z.pos ms
             | Z.pos _ => Z.shiftl (Z.pos ms) (es - et - e')
             | Z.neg _ => 0
             end).
  assert (Hm' : m' = Z.pos ms * 2 ^ (es - et - e')).
  { subst m'. destruct (es - et - e') as [|n|n] eqn:Hn; [lia| |lia].
    by rewrite Z.shiftl_mul_pow2. }
  clearbody m'.
  assert (Hpow : 0 < 2 ^ (es - et - e')) by (apply Z.pow_pos_nonneg; lia).
  assert (Hle : m' <= Z.pos mt * 2 ^ (0 - e')).
  { rewrite Hm', Hms, Hmt.
    replace (53 - Zdigits2 s) with (- es) by lia.
    replace (53 - Zdigits2 t) with (- et) by lia.
    rewrite <- !Z.mul_assoc, <- !pow_split by lia.
    replace (- et + (0 - e')) with (- es + (es - et - e')) by lia.
    apply Z.mul_le_mono_nonneg_r; [|done].
    apply Z.lt_le_incl, Z.pow_pos_nonneg; lia. }
  assert (Hm'0 : 0 <= m') by (rewrite Hm'; lia).
  pose proof (Z_div_mod_eq_full m' (Z.pos mt)) as Hdm.
  pose proof (Z.mod_pos_bound m' (Z.pos mt) ltac:(lia)) as Hmod.
  unfold Z.div, Z.modulo in Hdm, Hmod.
  destruct (Z.div_eucl m' (Z.pos mt)) as [q r]. cbn [fst snd] in *.
  assert (Hq : 0 <= q) by nia.
  apply binary_round_aux_le; try done.
  - lia.
  - assert (0 < 2 ^ (0 - e')) by (apply Z.pow_pos_nonneg; lia).
    destruct (Z.eq_dec q (2 ^ (0 - e'))) as [Heq|Hne].
    + right. split; [lia|]. assert (r = 0) by nia. subst r. apply new_location_zero.
    + left. nia.
Qed.

Lemma hundred_spec : Prim2SF 100%float = S754_finite false 7036874417766400 (-46).
Proof. reflexivity. Qed.

Lemma mul_hundred_le (x : float) :
  sf_le 1 0 (Prim2SF x) -> sf_le 100 0 (Prim2SF (PrimFloat.mul x 100%float)).
Proof.
  intros Hx. rewrite mul_spec, hundred_spec. unfold SF64mul.
  destruct (Prim2SF x) as [s|s| |s m e]; cbn [sf_le] in Hx; try done.
  - subst s. done.
  - destruct s; [done|]. destruct Hx as [He Hm]. unfold SFmul. cbn [xorb].
    apply binary_round_aux_le; try done; [lia|]. 
    assert (Hp : 0 < 2 ^ (0 - e)) by (apply Z.pow_pos_nonneg; lia).
    assert (Hsplit : 100 * 2 ^ (0 - (e + -46)) = 7036874417766400 * 2 ^ (0 - e)).
    { replace (0 - (e + -46)) with (46 + (0 - e)) by lia. rewrite pow_split by lia.
      change (2 ^ 46) with 70368744177664. lia. }
    rewrite Hsplit, Pos2Z.inj_mul.
    destruct (Z.eq_dec (Z.pos m) (2 ^ (0 - e))) as [Heq|Hne].
    + right. split; [|done]. rewrite Heq. lia.
    + left. nia.
Qed.

Lemma round_half_even_bounds (b m e : Z) :
  0 <= b -> 0 <= m -> e <= 0 -> m <= b * 2 ^ (- e) ->
  0 <= round_half_even m e <= b.
Proof.
  intros Hb Hm He Hle. unfold round_half_even.
  destruct (Z.leb_spec 0 e) as [He0|He0].
  { assert (e = 0) by lia. subst e. cbn in Hle |- *. lia. }
  assert (Hd : 0 < 2 ^ (- e)) by (apply Z.pow_pos_nonneg; lia).
  pose proof (Z.div_mod m (2 ^ (- e)) ltac:(lia)) as Hdm.
  pose proof (Z.mod_pos_bound m (2 ^ (- e)) Hd) as Hmod.
  set (d := 2 ^ (- e)) in *. set (q := m / d) in *. set (r := m mod d) in *.
  cbv zeta.
  assert (Hq : 0 <= q) by nia.
  assert (Hqb : q <= b) by nia.
  assert (Hqr : q = b -> r = 0) by nia.
  destruct (Z.compare_spec (2 * r) d) as [Heq|Hlt|Hgt].
  - destruct (Z.even q); lia.
  - lia.
  - lia.
Qed.

Lemma round2_float_hundredths (x : float) :
  sf_le 100 0 (Prim2SF x) ->
  exists q, 0 <= q <= 10000 /\ round2_float x = hundredths q.
Proof.
  intros Hx. unfold round2_float.
  destruct (Prim2SF x) as [s|s| |s m e] eqn:Hsf; cbn [sf_le] in Hx; try done.
  - subst s. exists 0. split; [lia|]. apply Prim2SF_inj. by rewrite Hsf.
  - destruct s; [done|]. destruct Hx as [He Hm].
    exists (round_half_even (100 * Z.pos m) e). split; [|done].
    apply round_half_even_bounds; [lia|lia|lia|].
    rewrite Z.sub_0_l in Hm. lia.
Qed.

Lemma hundredths_table :
  forallb (fun n => in_percent_range (hundredths (Z.of_nat n))) (seq 0 (Z.to_nat 10001)) = true.
Proof. vm_compute. reflexivity. Qed.

Lemma hundredths_in_range (q : Z) :
  0 <= q <= 10000 -> in_percent_range (hundredths q) = true.
Proof.
  intros Hq. pose proof hundredths_table as H.
  rewrite forallb_forall in H. specialize (H (Z.to_nat q)).
  rewrite Z2Nat.id in H by lia. apply H, in_seq. lia.
Qed.

Lemma accuracy_float_in_range (s t : Z) :
  0 <= s -> s <= t -> 0 < t -> t < 2 ^ 53 ->
  exists q, 0 <= q <= 10000 /\
    round2_float (PrimFloat.mul (truediv s t) 100%float) = hundredths q.
Proof.
  intros Hs Hst Ht Hsmall.
  apply round2_float_hundredths, mul_hundred_le, truediv_le_one; done.
Qed.

(** *** The invariant on every reachable tracker *)

Lemma Inv_record_all (calls : list Call) : Inv (record_all calls ProgressTracker.init).
Proof.
  generalize Inv_init. generalize ProgressTracker.init.
  induction calls as [|c calls IH]; intros ud HI; [done|].
  cbn [record_all fold_left]. apply IH. by apply Inv_update.
Qed.

(** * The claims *)

(** C3, as the code has it: [update_progress] validates nothing.  The call
    below names a topic outside the catalog and an empty problem id, and the
    attempt is appended all the same. *)
Lemma update_progress_accepts_invalid_input :
  ("Quantum Computing" ∉ ProgressTracker.all_topics) ∧
  (problems_solved
     (exec (ProgressTracker.update_progress "2025-01-01T09:00:00" ""
              "Quantum Computing" "Medium" true) ProgressTracker.init)
   = [ {| id := ""; topic := "Quantum Computing"; difficulty := "Medium";
          solved := true; timestamp := "2025-01-01T09:00:00" |} ]) ∧
  (exec (ProgressTracker.update_progress "2025-01-01T09:00:00" ""
           "Quantum Computing" "Medium" true) ProgressTracker.init
   ≠ ProgressTracker.init).
Proof.
  split; [|split].
  - unfold ProgressTracker.all_topics. rewrite !elem_of_cons, elem_of_nil.
    intros H. repeat (destruct H as [H|H]; [discriminate H|]). exact H.
  - by rewrite update_history.
  - intros Heq. apply (f_equal total_problems) in Heq.
    rewrite update_total in Heq. discriminate Heq.
Qed.

(** C3 (amended): [update_progress] never rejects a call.  Whatever the topic
    (in the catalog or not) and the problem id (empty or not), it appends the
    attempt to the history, adds the topic to the covered set, counts the
    call, and returns the summary of the updated state.  The tracker holds a
    single learner, so there is no learner id to check. *)
Theorem update_progress_never_rejects
    (ts problem_id t d : string) (s : bool) (ud : UserData) :
  let ud' := exec (ProgressTracker.update_progress ts problem_id t d s) ud in
  problems_solved ud' =
    problems_solved ud ++
      [ {| id := problem_id; topic := t; difficulty := d; solved := s; timestamp := ts |} ] ∧
  topics_covered ud' = {[ t ]} ∪ topics_covered ud ∧
  total_problems ud' = total_problems ud + 1 ∧
  eval (ProgressTracker.update_progress ts problem_id t d s) ud =
    eval ProgressTracker.get_progress_summary ud'.
Proof.
  intros ud'. subst ud'.
  rewrite update_history, update_topics, update_total, update_returns_summary.
  done.
Qed.

(** C4: [recommend_next_topic] returns the first weak area when there is one;
    otherwise the first catalog topic, in catalog order, that is not covered;
    otherwise the first catalog topic.  It always returns a topic, and reads
    the state without changing it. *)
Theorem recommend_next_topic_policy (ud : UserData) :
  let summary := eval ProgressTracker.get_progress_summary ud in
  let covered := fun t : string => t ∈ sum_topics_covered summary in
  let recommended := eval ProgressTracker.recommend_next_topic ud in
  (∀ w ws, sum_weak_areas summary = w :: ws → recommended = Some w) ∧
  (sum_weak_areas summary = [] →
   ∀ pre t post, ProgressTracker.all_topics = pre ++ t :: post →
     (∀ u, u ∈ pre → covered u) → ¬ covered t → recommended = Some t) ∧
  (sum_weak_areas summary = [] →
   (∀ t, t ∈ ProgressTracker.all_topics → covered t) →
   recommended = ProgressTracker.all_topics !! 0%nat) ∧
  is_Some recommended ∧
  exec ProgressTracker.recommend_next_topic ud = ud.
Proof.
  intros summary covered recommended. subst summary covered recommended.
  rewrite summary_weak.
  split; [|split; [|split; [|split]]].
  - intros w ws Hw. unfold ProgressTracker.recommend_next_topic. run_state.
    rewrite Hw. by rewrite bool_decide_eq_true_2.
  - intros Hw pre t post Hcat Hpre Ht.
    unfold ProgressTracker.recommend_next_topic. run_state.
    rewrite Hw, bool_decide_eq_false_2 by (intros H; by apply H). cbn [fst].
    rewrite Hcat, filter_first.
    + by rewrite bool_decide_eq_true_2.
    + intros u Hu Hn. apply Hn. apply summary_topics. by apply Hpre.
    + intros Hn. apply Ht. by apply summary_topics.
  - intros Hw Hall.
    unfold ProgressTracker.recommend_next_topic. run_state.
    rewrite Hw, bool_decide_eq_false_2 by (intros H; by apply H). cbn [fst].
    rewrite filter_none.
    + by rewrite bool_decide_eq_false_2 by (intros H; by apply H).
    + intros u Hu Hn. apply Hn. apply summary_topics. by apply Hall.
  - apply recommend_is_Some.
  - apply recommend_reads_only.
Qed.

(** The scan clause at work: Arrays and Trees solved, nothing failed. *)
Lemma recommend_next_topic_policy_witness :
  eval ProgressTracker.recommend_next_topic
    (record_all
       [ {| call_now := "2025-01-01T09:00:00"; call_problem_id := "arrays_1";
            call_topic := "Arrays"; call_difficulty := "Easy"; call_solved := true |};
         {| call_now := "2025-01-01T09:30:00"; call_problem_id := "trees_1";
            call_topic := "Trees"; call_difficulty := "Easy"; call_solved := true |} ]
       ProgressTracker.init) = Some "Linked Lists".
Proof.
  match goal with |- eval _ ?ud = _ =>
    destruct (recommend_next_topic_policy ud) as (_ & Hscan & _)
  end.
  apply (Hscan eq_refl ["Arrays"] "Linked Lists"
           ["Trees"; "Graphs"; "Dynamic Programming"; "Backtracking"; "Greedy";
            "Sorting"; "Searching"; "Strings"]).
  - reflexivity.
  - intros u Hu. apply list_elem_of_singleton in Hu. subst u.
    apply summary_topics. apply (bool_decide_unpack _). vm_compute. exact I.
  - intros Hcovered. apply summary_topics in Hcovered. revert Hcovered.
    apply (bool_decide_unpack _). vm_compute. exact I.
Defined.

(** C5: after any finite sequence of [update_progress] calls on a fresh
    tracker, the summary's [total_problems] is the number of calls and its
    [problems_solved] is the number of calls made with [solved = True]. *)
Theorem totals_count_the_calls (calls : list Call) :
  let summary :=
    eval ProgressTracker.get_progress_summary (record_all calls ProgressTracker.init) in
  sum_total_problems summary = Z.of_nat (length calls) ∧
  sum_problems_solved summary =
    Z.of_nat (length (filter (fun c => call_solved c = true) calls)).
Proof.
  intros summary. subst summary. rewrite summary_total, summary_solved.
  rewrite record_all_total, record_all_history. split.
  - cbn. lia.
  - cbn [ProgressTracker.init problems_solved app].
    by rewrite count_solved_length, filter_solved_map, length_map.
Qed.

(** C6: the invariant holds for a fresh tracker and every operation keeps it:
    [update_progress], the two reading methods, and the three operations of
    the coordinator.  Under it the covered set holds every topic of the
    history, the weak areas are covered topics without repetition, and
    [0 <= problems_solved <= total_problems] in the summary. *)
Theorem progress_invariant :
  Inv ProgressTracker.init ∧
  (∀ ts problem_id t d s ud,
     Inv ud → Inv (exec (ProgressTracker.update_progress ts problem_id t d s) ud)) ∧
  (∀ ud, Inv ud →
     Inv (exec ProgressTracker.get_progress_summary ud) ∧
     Inv (exec ProgressTracker.recommend_next_topic ud)) ∧
  (∀ env w, Inv (progress_tracker w) →
     (∀ user_level,
        Inv (progress_tracker (exec (DSAInterviewPrepAgent.start_session env user_level) w))) ∧
     (∀ problem_id solution_code language,
        Inv (progress_tracker
               (exec (DSAInterviewPrepAgent.submit_solution env problem_id solution_code
                        language) w))) ∧
     Inv (progress_tracker (exec DSAInterviewPrepAgent.get_study_plan w))) ∧
  (∀ calls, Inv (record_all calls ProgressTracker.init)).
Proof.
  split; [apply Inv_init|]. split; [intros; by apply Inv_update|].
  split; [|split].
  - intros ud HI. by rewrite summary_reads_only, recommend_reads_only.
  - intros env w HI. split; [|split].
    + intros user_level. by rewrite start_session_tracker.
    + intros problem_id solution_code language.
      rewrite submit_solution_tracker. by apply Inv_update.
    + by rewrite get_study_plan_reads_only.
  - intros calls. generalize Inv_init. generalize ProgressTracker.init.
    induction calls as [|c calls IH]; intros ud HI; [done|].
    cbn [record_all fold_left]. apply IH. by apply Inv_update.
Qed.

(** The invariant after a first, failed attempt. *)
Lemma progress_invariant_witness :
  Inv (exec (ProgressTracker.update_progress "2025-01-01T09:00:00" "graphs_1"
               "Graphs" "Medium" false) ProgressTracker.init).
Proof.
  destruct progress_invariant as (Hinit & Hupdate & _).
  apply Hupdate. exact Hinit.
Defined.

(** C7, as the code has it: the accuracy is rounded from the binary64
    product, not from the exact percentage.  With 23 of 160 attempts solved
    the exact percentage is 14.375, which rounds to 14.38: 1438 hundredths,
    whether a tie goes to the even neighbour or upwards.  The float quotient
    times 100 is 14.374999999999998, and the summary carries 14.37. *)
Lemma accuracy_is_rounded_from_the_float_product :
  let summary :=
    eval ProgressTracker.get_progress_summary
      (record_all solved_23_of_160 ProgressTracker.init) in
  (sum_problems_solved summary = 23) ∧
  (sum_total_problems summary = 160) ∧
  (exact_accuracy_hundredths false 23 160 = 1438) ∧
  (exact_accuracy_hundredths true 23 160 = 1438) ∧
  (sum_accuracy summary = PyFloat (hundredths 1437)) ∧
  (sum_accuracy summary ≠ PyFloat (hundredths 1438)) ∧
  (PrimFloat.ltb (hundredths 1437) (hundredths 1438) = true).
Proof.
  assert (Hacc : sum_accuracy
                   (eval ProgressTracker.get_progress_summary
                      (record_all solved_23_of_160 ProgressTracker.init))
                 = PyFloat (hundredths 1437)) by (vm_compute; reflexivity).
  cbv zeta. rewrite Hacc.
  split; [vm_compute; reflexivity|]. split; [vm_compute; reflexivity|].
  split; [reflexivity|]. split; [reflexivity|]. split; [reflexivity|].
  split; [|vm_compute; reflexivity].
  intros H.
  apply (f_equal (fun n => match n with
                           | PyFloat x => PrimFloat.ltb x (hundredths 1438)
                           | PyInt _ => false
                           end)) in H.
  vm_compute in H. discriminate H.
Qed.

(** C7 (amended): in the summary of a tracker that satisfies the invariant
    and has counted fewer than [2^53] attempts, the accuracy is the integer
    [0] when [total_problems] is [0], no division being evaluated; otherwise
    it is the float [solved / total * 100] computed in binary64 and rounded
    by [round(_, 2)], which is a float [q / 100] for an integer [q] between
    [0] and [10000], and lies between [0] and [100]. *)
Theorem accuracy_is_two_decimal_float_in_range (ud : UserData) :
  Inv ud → total_problems ud < 2 ^ 53 →
  let summary := eval ProgressTracker.get_progress_summary ud in
  (sum_total_problems summary = 0 → sum_accuracy summary = PyInt 0) ∧
  (0 < sum_total_problems summary →
   ∃ q, 0 <= q <= 10000 ∧
     sum_accuracy summary = PyFloat (hundredths q) ∧
     hundredths q =
       round2_float
         (PrimFloat.mul
            (truediv (sum_problems_solved summary) (sum_total_problems summary))
            100%float) ∧
     in_percent_range (hundredths q) = true).
Proof.
  intros HI Hsmall summary. subst summary.
  pose proof (inv_counts ud HI) as Hcounts.
  rewrite summary_solved, summary_total in *.
  split.
  - intros Hzero. apply accuracy_of_no_attempts. lia.
  - intros Hpos. rewrite accuracy_of_attempts by done.
    destruct (accuracy_float_in_range
                (ProgressTracker.count_solved (problems_solved ud))
                (total_problems ud)) as (q & Hq & Hround); try lia.
    exists q. split; [done|]. rewrite Hround.
    split; [done|]. split; [done|]. by apply hundredths_in_range.
Qed.

(** After three attempts, one of them solved. *)
Lemma accuracy_is_two_decimal_float_in_range_witness :
  let ud := record_all three_attempts ProgressTracker.init in
  let summary := eval ProgressTracker.get_progress_summary ud in
  Inv ud ∧ total_problems ud < 2 ^ 53 ∧
  ∃ q, 0 <= q <= 10000 ∧
    sum_accuracy summary = PyFloat (hundredths q) ∧
    in_percent_range (hundredths q) = true.
Proof.
  intros ud summary.
  assert (HI : Inv ud) by apply Inv_record_all.
  assert (Hsmall : total_problems ud < 2 ^ 53) by (vm_compute; reflexivity).
  split; [exact HI|]. split; [exact Hsmall|].
  destruct (accuracy_is_two_decimal_float_in_range ud HI Hsmall) as [_ Hpos].
  destruct Hpos as (q & Hq & Hacc & _ & Hrange); [vm_compute; reflexivity|].
  exists q. split; [exact Hq|]. split; [exact Hacc|exact Hrange].
Defined.

#[local] Set Warnings "-inexact-float".

(** C8: the suggestions are the rule table applied in its order, every
    matching rule contributing; [get_study_plan] returns exactly those for the
    current summary.  With 3 problems, accuracy 33.33 and weak areas
    [["Graphs"]] all three suggestions come out, in rule order, both for a
    summary given as such and for the tracker that reached it. *)
Theorem study_suggestions_follow_rule_table :
  (∀ p, DSAInterviewPrepAgent._generate_study_suggestions p = apply_rules p) ∧
  (∀ w, suggestions <$> eval DSAInterviewPrepAgent.get_study_plan w =
        Some (apply_rules
                (eval ProgressTracker.get_progress_summary (progress_tracker w)))) ∧
  (∀ solved_count topics,
     DSAInterviewPrepAgent._generate_study_suggestions
       {| sum_total_problems := 3; sum_problems_solved := solved_count;
          sum_accuracy := PyFloat 33.33; sum_topics_covered := topics;
          sum_weak_areas := ["Graphs"] |} =
     [ "Build consistency by solving at least 2 problems daily";
       "Focus on understanding concepts before attempting more problems";
       "Review Graphs fundamentals" ]) ∧
  (let summary :=
     eval ProgressTracker.get_progress_summary (progress_tracker after_three_attempts) in
   sum_total_problems summary = 3 ∧
   sum_accuracy summary = PyFloat 33.33 ∧
   sum_weak_areas summary = ["Graphs"] ∧
   suggestions <$> eval DSAInterviewPrepAgent.get_study_plan after_three_attempts =
     Some [ "Build consistency by solving at least 2 problems daily";
            "Focus on understanding concepts before attempting more problems";
            "Review Graphs fundamentals" ]).
Proof.
  assert (Hrules : ∀ p, DSAInterviewPrepAgent._generate_study_suggestions p = apply_rules p).
  { intros p.
    unfold DSAInterviewPrepAgent._generate_study_suggestions, apply_rules, rule_table.
    cbn [omap list_omap]. unfold rule_consistency, rule_concepts, rule_review.
    destruct (sum_total_problems p <? 10), (num_lt_int (sum_accuracy p) 50),
      (sum_weak_areas p); reflexivity. }
  split; [exact Hrules|]. split; [|split].
  - intros w. destruct (get_study_plan_result w) as (plan & -> & Hp & _ & Hs).
    cbn. by rewrite Hs, Hp, Hrules.
  - intros solved_count topics. vm_compute. reflexivity.
  - vm_compute. repeat split; reflexivity.
Qed.

(** C9: [get_progress_summary] reads the state and changes nothing: two calls
    in a row return the same summary and leave the state as it was. *)
Theorem get_progress_summary_idempotent (ud : UserData) :
  (first ← ProgressTracker.get_progress_summary;
   second ← ProgressTracker.get_progress_summary;
   mret (first, second)) ud =
  ((eval ProgressTracker.get_progress_summary ud,
    eval ProgressTracker.get_progress_summary ud), ud).
Proof.
  rewrite bind_run, bind_run, !summary_reads_only. reflexivity.
Qed.

(** C10: [start_session] leaves the tracker as it found it, whatever the
    model service answers or raises; it returns a started session whose
    progress is the summary of that unchanged state. *)
Theorem start_session_leaves_progress (env : Env) (user_level : string) (w : World) :
  progress_tracker (exec (DSAInterviewPrepAgent.start_session env user_level) w) =
    progress_tracker w ∧
  ∃ r, eval (DSAInterviewPrepAgent.start_session env user_level) w = Some r ∧
       ss_progress r = eval ProgressTracker.get_progress_summary (progress_tracker w).
Proof.
  split; [apply start_session_tracker|].
  destruct (start_session_result env user_level w) as (r & Hr & _ & Hp). eauto.
Qed.

(** ** What [submit_solution] records *)

(** Whatever the evaluator returned, the attempt appended by
    [submit_solution] has topic "Dynamic Programming", difficulty "Medium"
    and [solved = True]. *)
Lemma submit_solution_always_records
    (env : Env) (problem_id solution_code language : string) (w : World) :
  let w' := exec (DSAInterviewPrepAgent.submit_solution env problem_id solution_code
                    language) w in
  problems_solved (progress_tracker w') =
    problems_solved (progress_tracker w) ++
      [ {| id := problem_id; topic := "Dynamic Programming"; difficulty := "Medium";
           solved := true;
           timestamp :=
             isoformat env (submit_reading env problem_id solution_code language w) |} ] ∧
  total_problems (progress_tracker w') = total_problems (progress_tracker w) + 1.
Proof.
  intros w'. subst w'. rewrite submit_solution_tracker.
  by rewrite update_history, update_total.
Qed.

(** C1, on a run of the code: a fresh agent starts a session and is issued an
    Arrays problem; the submitted solution is reviewed as incorrect.  The
    attempt recorded is nevertheless a solved one, on "Dynamic Programming":
    the recorded values are the constants of the mocked update, not the
    evaluation's verdict nor the problem's topic. *)
Theorem submit_solution_records_mock_values :
  let started :=
    DSAInterviewPrepAgent.start_session rejecting_service "intermediate"
      DSAInterviewPrepAgent.init in
  let submitted :=
    DSAInterviewPrepAgent.submit_solution rejecting_service
      "arrays_20250101090000" "return []" "python" (snd started) in
  (ss_problem <$> fst started) ≫= (fun problem => problem !! "id") =
    Some (Str "arrays_20250101090000") ∧
  (ss_problem <$> fst started) ≫= (fun problem => problem !! "topic") =
    Some (Str "Arrays") ∧
  se_evaluation (fst submitted) !! "feedback" =
    Some (Str "correctness: incorrect; score: 10") ∧
  se_evaluation (fst submitted) !! "error" = None ∧
  problems_solved (progress_tracker (snd submitted)) =
    [ {| id := "arrays_20250101090000"; topic := "Dynamic Programming";
         difficulty := "Medium"; solved := true;
         timestamp := "2025-01-01T09:00:00" |} ].
Proof. vm_compute. repeat split; reflexivity. Qed.

(** C2, on a run of the code: the evaluator fails, the evaluation returned is
    the error dictionary, and an attempt is recorded all the same:
    [total_problems] goes from 0 to 1. *)
Theorem submit_solution_records_after_failure :
  let started :=
    DSAInterviewPrepAgent.start_session failing_service "intermediate"
      DSAInterviewPrepAgent.init in
  let submitted :=
    DSAInterviewPrepAgent.submit_solution failing_service
      "arrays_20250101090000" "return []" "python" (snd started) in
  total_problems (progress_tracker (snd started)) = 0 ∧
  se_evaluation (fst submitted) = <[ "error" := Str "503 UNAVAILABLE" ]> ∅ ∧
  total_problems (progress_tracker (snd submitted)) = 1 ∧
  sum_total_problems (se_progress (fst submitted)) = 1 ∧
  problems_solved (progress_tracker (snd submitted)) =
    [ {| id := "arrays_20250101090000"; topic := "Dynamic Programming";
         difficulty := "Medium"; solved := true;
         timestamp := "2025-01-01T09:00:00" |} ].
Proof. vm_compute. repeat split; reflexivity. Qed.

(** ** The examples of the specification *)

(** A failing generator: the session is still reported as started, with the
    error dictionary as its problem, and the tracker is the fresh one. *)
Example start_session_generator_fails :
  let service :=
    {| isoformat := fun _ => "2025-01-01T09:00:00";
       strftime := fun _ => "20250101090000";
       generate_content := fun _ _ _ => Raises "503 UNAVAILABLE";
       unicode_lower := fun s => s |} in
  let started :=
    DSAInterviewPrepAgent.start_session service "intermediate"
      DSAInterviewPrepAgent.init in
  (ss_problem <$> fst started) = Some (<[ "error" := Str "503 UNAVAILABLE" ]> ∅) ∧
  (ss_status <$> fst started) = Some "session_started" ∧
  progress_tracker (snd started) = ProgressTracker.init.
Proof. vm_compute. repeat split; reflexivity. Qed.

Example recommend_without_history :
  eval ProgressTracker.recommend_next_topic ProgressTracker.init = Some "Arrays".
Proof. vm_compute. reflexivity. Qed.

Example recommend_weak_area_first :
  let ud := record ProgressTracker.init
              {| call_now := "2025-01-01T09:00:00"; call_problem_id := "arrays_1";
                 call_topic := "Arrays"; call_difficulty := "Easy";
                 call_solved := false |} in
  weak_areas ud = ["Arrays"] ∧
  eval ProgressTracker.recommend_next_topic ud = Some "Arrays".
Proof. vm_compute. split; reflexivity. Qed.

Example recommend_first_uncovered :
  let ud := record_all
              [ {| call_now := "2025-01-01T09:00:00"; call_problem_id := "arrays_1";
                   call_topic := "Arrays"; call_difficulty := "Easy";
                   call_solved := true |};
                {| call_now := "2025-01-01T09:30:00"; call_problem_id := "trees_1";
                   call_topic := "Trees"; call_difficulty := "Easy";
                   call_solved := true |} ] ProgressTracker.init in
  weak_areas ud = [] ∧
  eval ProgressTracker.recommend_next_topic ud = Some "Linked Lists".
Proof. vm_compute. split; reflexivity. Qed.

Example accuracy_two_of_three :
  sum_accuracy
    (eval ProgressTracker.get_progress_summary
       (record_all
          [ {| call_now := "2025-01-01T09:00:00"; call_problem_id := "arrays_1";
               call_topic := "Arrays"; call_difficulty := "Easy";
               call_solved := true |};
            {| call_now := "2025-01-01T09:30:00"; call_problem_id := "trees_1";
               call_topic := "Trees"; call_difficulty := "Easy";
               call_solved := false |};
            {| call_now := "2025-01-01T10:00:00"; call_problem_id := "trees_2";
               call_topic := "Trees"; call_difficulty := "Easy";
               call_solved := true |} ] ProgressTracker.init)) = PyFloat 66.67.
Proof. vm_compute. reflexivity. Qed.


(** * Further properties of the code *)

(** ** Sequences of calls, from any state *)

Lemma record_all_cons (c : Call) (calls : list Call) (ud : UserData) :
  record_all (c :: calls) ud = record_all calls (record ud c).
Proof. reflexivity. Qed.

Lemma record_all_app (pre post : list Call) (ud : UserData) :
  record_all (pre ++ post) ud = record_all post (record_all pre ud).
Proof. unfold record_all. apply fold_left_app. Qed.

Lemma record_weak (ud : UserData) (c : Call) :
  weak_areas (record ud c) =
  if call_solved c then weak_areas ud
  else if decide (call_topic c ∈ weak_areas ud) then weak_areas ud
       else weak_areas ud ++ [call_topic c].
Proof. unfold record. apply update_weak. Qed.

Lemma record_weak_prefix (ud : UserData) (c : Call) :
  weak_areas ud `prefix_of` weak_areas (record ud c).
Proof.
  rewrite record_weak. destruct (call_solved c); [done|].
  case_decide; [done|]. by apply prefix_app_r.
Qed.

Lemma record_all_weak_prefix (calls : list Call) (ud : UserData) :
  weak_areas ud `prefix_of` weak_areas (record_all calls ud).
Proof.
  revert ud. induction calls as [|c calls IH]; intros ud; [done|].
  rewrite record_all_cons. etrans; [apply record_weak_prefix|apply IH].
Qed.

Lemma record_weak_elem (ud : UserData) (c : Call) (t : string) :
  t ∈ weak_areas (record ud c) ↔
  t ∈ weak_areas ud ∨ (call_topic c = t ∧ call_solved c = false).
Proof.
  rewrite record_weak. destruct (call_solved c).
  - split; [by left|]. by intros [H | [_ H]].
  - case_decide as Hin.
    + split; [by left|]. intros [H | [<- _]]; done.
    + rewrite elem_of_app, list_elem_of_singleton. split.
      * intros [H | ->]; [by left | by right].
      * intros [H | [<- _]]; [by left | by right].
Qed.

Lemma record_all_weak_elem (calls : list Call) (ud : UserData) (t : string) :
  t ∈ weak_areas (record_all calls ud) ↔
  t ∈ weak_areas ud ∨ ∃ c, c ∈ calls ∧ call_topic c = t ∧ call_solved c = false.
Proof.
  revert ud. induction calls as [|c calls IH]; intros ud.
  - cbn. split; [by left|]. intros [H | (c & Hc & _)]; [done|].
    by apply elem_of_nil in Hc.
  - rewrite record_all_cons, IH, record_weak_elem. split.
    + intros [[H | [Ht Hs]] | (c' & Hc' & Ht & Hs)].
      * by left.
      * right. exists c. split; [left|done].
      * right. exists c'. split; [by right|done].
    + intros [H | (c' & Hc' & Ht & Hs)]; [by left; left|].
      apply elem_of_cons in Hc' as [-> | Hc'].
      * left. by right.
      * right. by exists c'.
Qed.

Lemma record_topics (ud : UserData) (c : Call) :
  topics_covered (record ud c) = {[ call_topic c ]} ∪ topics_covered ud.
Proof. unfold record. apply update_topics. Qed.

Lemma record_all_topics_elem (calls : list Call) (ud : UserData) (t : string) :
  t ∈ topics_covered (record_all calls ud) ↔
  t ∈ topics_covered ud ∨ ∃ c, c ∈ calls ∧ call_topic c = t.
Proof.
  revert ud. induction calls as [|c calls IH]; intros ud.
  - cbn. split; [by left|]. intros [H | (c & Hc & _)]; [done|].
    by apply elem_of_nil in Hc.
  - rewrite record_all_cons, IH, record_topics.
    rewrite elem_of_union, elem_of_singleton. split.
    + intros [[-> | H] | (c' & Hc' & Ht)].
      * right. exists c. split; [left|done].
      * by left.
      * right. exists c'. split; [by right|done].
    + intros [H | (c' & Hc' & Ht)]; [by left; right|].
      apply elem_of_cons in Hc' as [-> | Hc'].
      * left. by left.
      * right. by exists c'.
Qed.

Lemma record_all_solved_weak (calls : list Call) (ud : UserData) :
  (∀ c, c ∈ calls → call_solved c = true) →
  weak_areas (record_all calls ud) = weak_areas ud.
Proof.
  revert ud. induction calls as [|c calls IH]; intros ud Hall; [done|].
  rewrite record_all_cons, IH by (intros c' Hc'; apply Hall; by right).
  rewrite record_weak, (Hall c) by left. done.
Qed.

Lemma recommend_of_weak (ud : UserData) (w : string) (ws : list string) :
  weak_areas ud = w :: ws →
  eval ProgressTracker.recommend_next_topic ud = Some w.
Proof.
  intros Hw. unfold ProgressTracker.recommend_next_topic. run_state.
  rewrite Hw. by rewrite bool_decide_eq_true_2.
Qed.

Lemma record_unused_fields (ud : UserData) (c : Call) :
  streak_days (record ud c) = streak_days ud ∧
  last_session (record ud c) = last_session ud.
Proof.
  unfold record, ProgressTracker.update_progress, ProgressTracker.get_progress_summary.
  run_state. destruct (call_solved c); cbn; [done|]. by case_decide.
Qed.

Lemma record_all_unused_fields (calls : list Call) (ud : UserData) :
  streak_days (record_all calls ud) = streak_days ud ∧
  last_session (record_all calls ud) = last_session ud.
Proof.
  revert ud. induction calls as [|c calls IH]; intros ud; [done|].
  rewrite record_all_cons. destruct (IH (record ud c)) as [-> ->].
  apply record_unused_fields.
Qed.

(** X1: the history is append-only.  After any calls of [update_progress],
    from any state, the history is the old history followed by one attempt
    per call, in call order, and [total_problems] has grown by the number of
    calls. *)
Theorem history_is_append_only (calls : list Call) (ud : UserData) :
  problems_solved (record_all calls ud) = problems_solved ud ++ map attempt_of calls ∧
  total_problems (record_all calls ud) = total_problems ud + Z.of_nat (length calls).
Proof. split; [apply record_all_history | apply record_all_total]. Qed.

(** X2: weak areas and covered topics only grow.  Whatever calls follow, and
    whether they are solved or not, the weak areas keep their entries and
    their order (new ones are added at the end), and no covered topic is
    lost.  A later solved attempt on a weak topic does not clear it. *)
Theorem weak_areas_and_topics_only_grow (calls : list Call) (ud : UserData) :
  weak_areas ud `prefix_of` weak_areas (record_all calls ud) ∧
  topics_covered ud ⊆ topics_covered (record_all calls ud).
Proof.
  split; [apply record_all_weak_prefix|].
  intros t Ht. apply record_all_topics_elem. by left.
Qed.

(** X3: on a tracker that started fresh, the weak areas are exactly the
    topics of the failed attempts. *)
Theorem weak_areas_are_failed_topics (calls : list Call) (t : string) :
  t ∈ weak_areas (record_all calls ProgressTracker.init) ↔
  ∃ c, c ∈ calls ∧ call_topic c = t ∧ call_solved c = false.
Proof.
  rewrite record_all_weak_elem. split; [|by right].
  intros [H | H]; [|done]. by apply elem_of_nil in H.
Qed.

(** X4: on a tracker that started fresh, once an attempt has failed the
    recommended topic is the topic of the first failed attempt, whatever was
    attempted afterwards. *)
Theorem recommend_first_failed_topic (pre post : list Call) (c : Call) :
  (∀ c', c' ∈ pre → call_solved c' = true) →
  call_solved c = false →
  eval ProgressTracker.recommend_next_topic
    (record_all (pre ++ c :: post) ProgressTracker.init) = Some (call_topic c).
Proof.
  intros Hpre Hc.
  rewrite record_all_app, record_all_cons.
  pose proof (record_all_weak_prefix post
                (record (record_all pre ProgressTracker.init) c)) as [k Hk].
  rewrite record_weak, Hc in Hk.
  rewrite (record_all_solved_weak pre ProgressTracker.init Hpre) in Hk.
  cbn [ProgressTracker.init weak_areas] in Hk.
  rewrite decide_False in Hk by apply not_elem_of_nil.
  by apply (recommend_of_weak _ (call_topic c) k).
Qed.

Lemma recommend_first_failed_topic_witness :
  eval ProgressTracker.recommend_next_topic
    (record_all
       ([ {| call_now := "2025-01-01T09:00:00"; call_problem_id := "arrays_1";
             call_topic := "Arrays"; call_difficulty := "Easy"; call_solved := true |} ] ++
        {| call_now := "2025-01-01T09:30:00"; call_problem_id := "trees_1";
           call_topic := "Trees"; call_difficulty := "Easy"; call_solved := false |} ::
        [ {| call_now := "2025-01-01T10:00:00"; call_problem_id := "graphs_1";
             call_topic := "Graphs"; call_difficulty := "Hard"; call_solved := false |} ])
       ProgressTracker.init) = Some "Trees".
Proof.
  apply (recommend_first_failed_topic _ _
           {| call_now := "2025-01-01T09:30:00"; call_problem_id := "trees_1";
              call_topic := "Trees"; call_difficulty := "Easy"; call_solved := false |}).
  - intros c' Hc'. apply list_elem_of_singleton in Hc'. by subst c'.
  - reflexivity.
Defined.

(** X5: on a tracker that started fresh, the summary's [topics_covered] lists
    exactly the topics that were attempted, each of them once. *)
Theorem covered_topics_are_attempted_topics (calls : list Call) :
  let summary :=
    eval ProgressTracker.get_progress_summary (record_all calls ProgressTracker.init) in
  NoDup (sum_topics_covered summary) ∧
  ∀ t, t ∈ sum_topics_covered summary ↔ ∃ c, c ∈ calls ∧ call_topic c = t.
Proof.
  intros summary. subst summary. split.
  - change (NoDup (elements (topics_covered (record_all calls ProgressTracker.init)))).
    apply NoDup_elements.
  - intros t. rewrite summary_topics, record_all_topics_elem.
    split; [|by right]. intros [H | H]; [|done]. by apply not_elem_of_empty in H.
Qed.

(** X6: on a tracker that started fresh, the accuracy is the integer [0]
    exactly when nothing was attempted; after any attempt it is a float. *)
Theorem accuracy_is_integer_zero_iff_no_attempts (calls : list Call) :
  let accuracy :=
    sum_accuracy
      (eval ProgressTracker.get_progress_summary (record_all calls ProgressTracker.init)) in
  (accuracy = PyInt 0 ↔ calls = []) ∧
  (calls ≠ [] → ∃ f, accuracy = PyFloat f).
Proof.
  intros accuracy. subst accuracy.
  destruct calls as [|c calls].
  - split; [done|]. by intros H.
  - assert (Hpos : 0 < total_problems (record_all (c :: calls) ProgressTracker.init)).
    { rewrite record_all_total. cbn [ProgressTracker.init total_problems length]. lia. }
    rewrite accuracy_of_attempts by done. split.
    + split; intros H; discriminate H.
    + intros _. by eexists.
Qed.

(** X7: [streak_days] and [last_session] are never written: calls of
    [update_progress] leave both as they were. *)
Theorem streak_and_last_session_never_written (calls : list Call) (ud : UserData) :
  streak_days (record_all calls ud) = streak_days ud ∧
  last_session (record_all calls ud) = last_session ud.
Proof. apply record_all_unused_fields. Qed.

(** ** The two model-backed agents *)

(** X8: [generate_problem] sends one request and never touches the tracker.
    When the model answers, the problem carries the topic and difficulty it
    was asked for, the reply as content, an id made of the topic's slug
    ([topic.lower()] with spaces replaced) and the clock, and no [error]
    key; when the request raises, the result is the dictionary with the
    single key [error], and the clock is not read. *)
Theorem generate_problem_outcome
    (env : Env) (topic difficulty user_level : string) (w : World) :
  let reply :=
    generate_content env (requests w) model_name
      (ProblemGeneratorAgent.prompt topic difficulty user_level) in
  let problem :=
    eval (ProblemGeneratorAgent.generate_problem env topic difficulty user_level) w in
  let w' :=
    exec (ProblemGeneratorAgent.generate_problem env topic difficulty user_level) w in
  progress_tracker w' = progress_tracker w ∧
  requests w' = S (requests w) ∧
  match reply with
  | Text text =>
      problem !! "error" = None ∧
      problem !! "topic" = Some (Str topic) ∧
      problem !! "difficulty" = Some (Str difficulty) ∧
      problem !! "content" = Some (Str text) ∧
      problem !! "id" =
        Some (Str (replace_space (lower env topic) +:+ "_" +:+ strftime env (clock w))) ∧
      problem !! "generated_at" = Some (Str (isoformat env (S (clock w)))) ∧
      clock w' = S (S (clock w))
  | Raises e =>
      problem = <[ "error" := Str e ]> ∅ ∧ clock w' = clock w
  end.
Proof.
  intros reply problem w'. subst reply problem w'.
  unfold ProblemGeneratorAgent.generate_problem. run_state.
  destruct (generate_content env _ _ _); cbn; repeat split; by simplify_map_eq.
Qed.

(** X9: [evaluate_solution] never touches the tracker and accepts any
    problem dictionary.  When the model answers, the evaluation carries the
    feedback, no [error] key, and as [problem_id] the problem's id, or [None]
    when the problem has none; when the request raises, the result is the
    dictionary with the single key [error]. *)
Theorem evaluate_solution_outcome
    (env : Env) (problem : Dict) (solution_code language : string) (w : World) :
  let reply :=
    generate_content env (requests w) model_name
      (SolutionEvaluatorAgent.prompt problem solution_code language) in
  let evaluation :=
    eval (SolutionEvaluatorAgent.evaluate_solution env problem solution_code language) w in
  let w' :=
    exec (SolutionEvaluatorAgent.evaluate_solution env problem solution_code language) w in
  progress_tracker w' = progress_tracker w ∧
  requests w' = S (requests w) ∧
  match reply with
  | Text feedback =>
      evaluation !! "error" = None ∧
      evaluation !! "feedback" = Some (Str feedback) ∧
      evaluation !! "problem_id" =
        Some (match problem !! "id" with Some v => v | None => NoneV end) ∧
      evaluation !! "evaluated_at" = Some (Str (isoformat env (clock w)))
  | Raises e => evaluation = <[ "error" := Str e ]> ∅
  end.
Proof.
  intros reply evaluation w'. subst reply evaluation w'.
  unfold SolutionEvaluatorAgent.evaluate_solution. run_state.
  destruct (generate_content env _ _ _); cbn; repeat split; by simplify_map_eq.
Qed.

Lemma replace_space_no_space (s : string) :
  Forall (fun c => c ≠ " "%char) (list_ascii_of_string (replace_space s)).
Proof.
  induction s as [|c s IH]; cbn [replace_space list_ascii_of_string].
  - constructor.
  - constructor; [|exact IH].
    destruct (Ascii.eqb c " "%char) eqn:Hc; [discriminate|].
    by apply Ascii.eqb_neq.
Qed.

Lemma slug_char (c : ascii) :
  let c' := lower_ascii c in
  let c'' := if Ascii.eqb c' " "%char then "_"%char else c' in
  ¬ (65 ≤ nat_of_ascii c'' ≤ 90)%nat.
Proof.
  destruct c as [[] [] [] [] [] [] [] []]; vm_compute; lia.
Qed.

Lemma slug_ascii_no_capital (s : string) :
  Forall (fun c => ¬ (65 ≤ nat_of_ascii c ≤ 90)%nat)
         (list_ascii_of_string (replace_space (lower_ascii_text s))).
Proof.
  induction s as [|c s IH]; cbn [lower_ascii_text replace_space list_ascii_of_string].
  - constructor.
  - constructor; [apply slug_char | exact IH].
Qed.

(** X10: the slug a problem id starts with, [topic.lower().replace(' ', '_')],
    holds no space, whatever the topic; and for a topic that is all ASCII it
    holds no capital letter A-Z either. *)
Theorem problem_id_slug_is_clean (env : Env) (topic : string) :
  Forall (fun c => c ≠ " "%char)
         (list_ascii_of_string (replace_space (lower env topic))) ∧
  (is_ascii topic = true →
   Forall (fun c => ¬ (65 ≤ nat_of_ascii c ≤ 90)%nat)
          (list_ascii_of_string (replace_space (lower env topic)))).
Proof.
  split; [apply replace_space_no_space|].
  intros Hascii. unfold lower. rewrite Hascii. apply slug_ascii_no_capital.
Qed.

(** ** The coordinator, step by step *)

Section CoordinatorRuns.

Import DSAInterviewPrepAgent.

Lemma now_run (w : World) :
  now w = (clock w, {| progress_tracker := progress_tracker w; clock := S (clock w); requests := requests w |}).
Proof. reflexivity. Qed.

Lemma get_study_plan_eval (w : World) :
  eval get_study_plan w =
  match eval ProgressTracker.recommend_next_topic (progress_tracker w) with
  | None => None
  | Some next_topic =>
      let progress := eval ProgressTracker.get_progress_summary (progress_tracker w) in
      Some {| current_progress := progress;
              recommended_topic := next_topic;
              plan_weak_areas := sum_weak_areas progress;
              suggestions := _generate_study_suggestions progress |}
  end.
Proof.
  unfold get_study_plan, eval at 1. rewrite bind_run, exec_tracker.
  rewrite summary_reads_only, world_eta.
  rewrite bind_run, exec_tracker, recommend_reads_only, world_eta.
  rewrite !eval_tracker.
  by destruct (eval ProgressTracker.recommend_next_topic (progress_tracker w)).
Qed.

Lemma submit_solution_run (env : Env) (problem_id solution_code language : string) (w : World) :
  let problem : Dict :=
    <[ "id" := Str problem_id ]>
    (<[ "content" := Str "Problem content placeholder" ]> ∅) in
  let w1 := exec (SolutionEvaluatorAgent.evaluate_solution env problem solution_code language) w in
  let ud' :=
    exec (ProgressTracker.update_progress (isoformat env (clock w1))
            problem_id "Dynamic Programming" "Medium" true) (progress_tracker w1) in
  submit_solution env problem_id solution_code language w =
  ({| se_status := "solution_evaluated";
      se_evaluation :=
        eval (SolutionEvaluatorAgent.evaluate_solution env problem solution_code language) w;
      se_progress := eval ProgressTracker.get_progress_summary ud' |},
   {| progress_tracker := ud'; clock := S (clock w1); requests := requests w1 |}).
Proof.
  intros problem w1 ud'. unfold submit_solution. fold problem.
  rewrite bind_run. fold w1. rewrite bind_run.
  unfold eval at 1, exec at 1. rewrite now_run. cbn [fst snd].
  rewrite bind_run, exec_tracker. cbn [progress_tracker clock requests].
  fold ud'. rewrite bind_run, eval_tracker, exec_tracker.
  cbn [progress_tracker clock requests]. rewrite summary_reads_only. reflexivity.
Qed.

Lemma start_session_eval (env : Env) (user_level : string) (w : World) :
  eval (start_session env user_level) w =
  match eval ProgressTracker.recommend_next_topic (progress_tracker w) with
  | None => None
  | Some topic =>
      Some {| ss_status := "session_started";
              ss_problem :=
                eval (ProblemGeneratorAgent.generate_problem env topic "Medium" user_level) w;
              ss_progress :=
                eval ProgressTracker.get_progress_summary (progress_tracker w) |}
  end.
Proof.
  unfold start_session, eval at 1. rewrite bind_run, eval_tracker, exec_tracker.
  rewrite recommend_reads_only, world_eta.
  destruct (eval ProgressTracker.recommend_next_topic (progress_tracker w)); [|done].
  rewrite bind_run, bind_run, eval_tracker, generate_problem_tracker. reflexivity.
Qed.

End CoordinatorRuns.

Lemma filter_all {A} (P : A → Prop) `{∀ x, Decision (P x)} (l : list A) :
  (∀ x, x ∈ l → P x) → filter P l = l.
Proof.
  induction l as [|x l IH]; intros Hl; [done|].
  rewrite filter_cons_True by (apply Hl; left).
  f_equal. apply IH. intros y Hy. apply Hl. by right.
Qed.

Lemma recommend_arrays (ud : UserData) :
  weak_areas ud = [] → "Arrays" ∉ topics_covered ud →
  eval ProgressTracker.recommend_next_topic ud = Some "Arrays".
Proof.
  intros Hw Hcov. unfold ProgressTracker.recommend_next_topic. run_state.
  rewrite Hw, bool_decide_eq_false_2 by (intros H; by apply H). cbn [fst].
  change ProgressTracker.all_topics with
    ([] ++ "Arrays" :: ["Linked Lists"; "Trees"; "Graphs"; "Dynamic Programming";
                        "Backtracking"; "Greedy"; "Sorting"; "Searching"; "Strings"]).
  rewrite filter_first; [|by intros x Hx; apply elem_of_nil in Hx|done].
  by rewrite bool_decide_eq_true_2.
Qed.

Lemma submitted_only_init : submitted_only ProgressTracker.init.
Proof.
  split; [done|]. split; [done|]. split; [|done].
  intros a Ha. by apply elem_of_nil in Ha.
Qed.

Lemma submitted_only_update (ts problem_id : string) (ud : UserData) :
  submitted_only ud →
  submitted_only
    (exec (ProgressTracker.update_progress ts problem_id "Dynamic Programming"
             "Medium" true) ud).
Proof.
  intros (Hw & Ht & Hh & Hs & Hl).
  pose (c := {| call_now := ts; call_problem_id := problem_id;
                call_topic := "Dynamic Programming"; call_difficulty := "Medium";
                call_solved := true |}).
  change (submitted_only (record ud c)).
  destruct (record_unused_fields ud c) as [Hs' Hl'].
  split; [by rewrite record_weak|].
  split.
  { rewrite record_topics. intros x Hx.
    apply elem_of_union in Hx as [Hx | Hx]; [done | by apply Ht]. }
  split; [|by rewrite Hs', Hl'].
  intros att. unfold record. rewrite update_history, elem_of_app, list_elem_of_singleton.
  intros [Ha | ->]; [by apply Hh | done].
Qed.

Lemma run_op_tracker (env : Env) (w : World) (op : Op) :
  progress_tracker (run_op env w op) =
  match op with
  | SubmitSolution problem_id solution_code language =>
      exec (ProgressTracker.update_progress
              (isoformat env (submit_reading env problem_id solution_code language w))
              problem_id "Dynamic Programming" "Medium" true)
           (progress_tracker w)
  | _ => progress_tracker w
  end.
Proof.
  destruct op as [user_level | problem_id solution_code language |]; cbn [run_op].
  - apply start_session_tracker.
  - apply submit_solution_tracker.
  - by rewrite get_study_plan_reads_only.
Qed.

Lemma run_ops_submitted_only (env : Env) (ops : list Op) (w : World) :
  submitted_only (progress_tracker w) →
  submitted_only (progress_tracker (run_ops env ops w)) ∧
  total_problems (progress_tracker (run_ops env ops w)) =
    total_problems (progress_tracker w) + Z.of_nat (length (List.filter is_submit ops)).
Proof.
  revert w. induction ops as [|op ops IH]; intros w Hw.
  - cbn. split; [done | lia].
  - cbn [run_ops fold_left]. fold (run_ops env ops (run_op env w op)).
    assert (Hstep : submitted_only (progress_tracker (run_op env w op)) ∧
                    total_problems (progress_tracker (run_op env w op)) =
                    total_problems (progress_tracker w) +
                    (if is_submit op then 1 else 0)).
    { rewrite run_op_tracker. destruct op; cbn [is_submit]; try (split; [done | lia]).
      split; [by apply submitted_only_update | by rewrite update_total]. }
    destruct Hstep as [Hstep Htotal].
    destruct (IH _ Hstep) as [Hinv Hcount]. split; [done|].
    rewrite Hcount, Htotal. cbn [List.filter].
    destruct (is_submit op); cbn [length]; lia.
Qed.

(** X11: [submit_solution] always reports [solution_evaluated], whatever the
    evaluator returned: the evaluation is handed back as it came, the
    progress returned is the summary after the recording, and both
    [total_problems] and the solved count have grown by one. *)
Theorem submit_solution_report
    (env : Env) (problem_id solution_code language : string) (w : World) :
  let problem : Dict :=
    <[ "id" := Str problem_id ]>
    (<[ "content" := Str "Problem content placeholder" ]> ∅) in
  let before := eval ProgressTracker.get_progress_summary (progress_tracker w) in
  let result :=
    eval (DSAInterviewPrepAgent.submit_solution env problem_id solution_code language) w in
  let w' :=
    exec (DSAInterviewPrepAgent.submit_solution env problem_id solution_code language) w in
  se_status result = "solution_evaluated" ∧
  se_evaluation result =
    eval (SolutionEvaluatorAgent.evaluate_solution env problem solution_code language) w ∧
  se_progress result = eval ProgressTracker.get_progress_summary (progress_tracker w') ∧
  sum_total_problems (se_progress result) = sum_total_problems before + 1 ∧
  sum_problems_solved (se_progress result) = sum_problems_solved before + 1 ∧
  sum_weak_areas (se_progress result) = sum_weak_areas before.
Proof.
  intros problem before result w'. subst before result w'.
  pose proof (submit_solution_run env problem_id solution_code language w) as Hrun.
  cbv zeta in Hrun. fold problem in Hrun.
  pose proof (f_equal fst Hrun) as Heval. pose proof (f_equal snd Hrun) as Hexec.
  cbn [fst snd] in Heval, Hexec.
  fold (eval (DSAInterviewPrepAgent.submit_solution env problem_id solution_code
                language) w) in Heval.
  fold (exec (DSAInterviewPrepAgent.submit_solution env problem_id solution_code
                language) w) in Hexec.
  rewrite Heval, Hexec. clear Hrun Heval Hexec.
  cbn [se_status se_evaluation se_progress progress_tracker].
  rewrite !summary_total, !summary_solved, !summary_weak.
  rewrite update_total, update_history, update_weak, count_solved_app.
  destruct (evaluate_solution_outcome env problem solution_code language w)
    as (-> & _).
  repeat split; reflexivity.
Qed.

(** X12: [start_session] never raises and always reports [session_started]:
    the problem it returns is what [generate_problem] gave for the
    recommended topic at difficulty Medium, the error dictionary included. *)
Theorem start_session_report (env : Env) (user_level : string) (w : World) :
  ∃ topic result,
    eval ProgressTracker.recommend_next_topic (progress_tracker w) = Some topic ∧
    eval (DSAInterviewPrepAgent.start_session env user_level) w = Some result ∧
    ss_status result = "session_started" ∧
    ss_problem result =
      eval (ProblemGeneratorAgent.generate_problem env topic "Medium" user_level) w ∧
    requests (exec (DSAInterviewPrepAgent.start_session env user_level) w) =
      S (requests w).
Proof.
  destruct (recommend_is_Some (progress_tracker w)) as [topic Ht].
  exists topic. eexists. split; [exact Ht|].
  rewrite start_session_eval, Ht. split; [reflexivity|]. split; [reflexivity|].
  split; [reflexivity|].
  unfold DSAInterviewPrepAgent.start_session, exec at 1.
  rewrite bind_run, eval_tracker, exec_tracker, recommend_reads_only, world_eta, Ht.
  rewrite bind_run, bind_run, exec_tracker. cbn.
  by destruct (generate_problem_outcome env topic "Medium" user_level w) as (_ & -> & _).
Qed.

(** X13: [get_study_plan] is read-only and never raises: no request, no
    clock reading, no change to the tracker; the plan holds the current
    summary, the tracker's recommendation and the tracker's weak areas. *)
Theorem get_study_plan_is_read_only (w : World) :
  exec DSAInterviewPrepAgent.get_study_plan w = w ∧
  ∃ plan,
    eval DSAInterviewPrepAgent.get_study_plan w = Some plan ∧
    current_progress plan =
      eval ProgressTracker.get_progress_summary (progress_tracker w) ∧
    eval ProgressTracker.recommend_next_topic (progress_tracker w) =
      Some (recommended_topic plan) ∧
    plan_weak_areas plan = weak_areas (progress_tracker w).
Proof.
  split; [apply get_study_plan_reads_only|].
  rewrite get_study_plan_eval.
  destruct (recommend_is_Some (progress_tracker w)) as [t ->].
  eexists. by repeat split.
Qed.

(** X14: when there is a weak area, the study plan recommends the first one
    and its last suggestion is to review that same topic. *)
Theorem review_suggestion_names_recommended_topic
    (w : World) (t : string) (ts : list string) :
  weak_areas (progress_tracker w) = t :: ts →
  ∃ plan,
    eval DSAInterviewPrepAgent.get_study_plan w = Some plan ∧
    recommended_topic plan = t ∧
    last (suggestions plan) = Some ("Review " +:+ t +:+ " fundamentals").
Proof.
  intros Hw. rewrite get_study_plan_eval, (recommend_of_weak _ t ts Hw).
  eexists. split; [reflexivity|]. split; [reflexivity|].
  cbn [suggestions]. unfold DSAInterviewPrepAgent._generate_study_suggestions.
  rewrite summary_weak, Hw.
  destruct (sum_total_problems _ <? 10), (num_lt_int _ 50); reflexivity.
Qed.

Lemma review_suggestion_names_recommended_topic_witness :
  ∃ plan,
    eval DSAInterviewPrepAgent.get_study_plan after_three_attempts = Some plan ∧
    recommended_topic plan = "Graphs" ∧
    last (suggestions plan) = Some "Review Graphs fundamentals".
Proof.
  apply (review_suggestion_names_recommended_topic after_three_attempts "Graphs" []).
  vm_compute. reflexivity.
Defined.

(** X15: through the coordinator alone, from a fresh agent, every recorded
    attempt is a solved Medium one on "Dynamic Programming", one per
    [submit_solution]; no weak area ever appears, [streak_days] and
    [last_session] stay as created, and the next topic recommended is always
    "Arrays". *)
Theorem coordinator_reachable_states (env : Env) (ops : list Op) :
  let ud := progress_tracker (run_ops env ops DSAInterviewPrepAgent.init) in
  submitted_only ud ∧
  total_problems ud = Z.of_nat (length (List.filter is_submit ops)) ∧
  sum_problems_solved (eval ProgressTracker.get_progress_summary ud) =
    Z.of_nat (length (problems_solved ud)) ∧
  eval ProgressTracker.recommend_next_topic ud = Some "Arrays".
Proof.
  intros ud. subst ud.
  destruct (run_ops_submitted_only env ops DSAInterviewPrepAgent.init submitted_only_init)
    as [Hinv Htotal].
  split; [done|]. split; [rewrite Htotal; cbn; lia|].
  destruct Hinv as (Hw & Ht & Hh & _). split.
  - rewrite summary_solved, count_solved_length, filter_all; [done|].
    intros a Ha. by apply Hh.
  - apply recommend_arrays; [done|]. intros Hin. apply Ht in Hin.
    apply elem_of_singleton in Hin. discriminate Hin.
Qed.

(** X16: the script of the file, whatever the model service does: the
    session is started on an "Arrays" problem request at difficulty Medium,
    the plan recommends "Arrays" with the two suggestions of an empty
    history (consistency, then concepts), and the tracker is still the fresh
    one. *)
Theorem main_on_fresh_agent (env : Env) :
  ∃ session plan,
    eval (main env) DSAInterviewPrepAgent.init = Some (session, plan) ∧
    progress_tracker (exec (main env) DSAInterviewPrepAgent.init) = ProgressTracker.init ∧
    ss_status session = "session_started" ∧
    ss_problem session =
      eval (ProblemGeneratorAgent.generate_problem env "Arrays" "Medium" "intermediate")
           DSAInterviewPrepAgent.init ∧
    recommended_topic plan = "Arrays" ∧
    plan_weak_areas plan = [] ∧
    current_progress plan =
      {| sum_total_problems := 0; sum_problems_solved := 0; sum_accuracy := PyInt 0;
         sum_topics_covered := []; sum_weak_areas := [] |} ∧
    suggestions plan =
      [ "Build consistency by solving at least 2 problems daily";
        "Focus on understanding concepts before attempting more problems" ].
Proof.
  pose proof (start_session_eval env "intermediate" DSAInterviewPrepAgent.init) as Hs.
  pose proof (start_session_tracker env "intermediate" DSAInterviewPrepAgent.init) as Ht.
  set (w1 := exec (DSAInterviewPrepAgent.start_session env "intermediate")
                  DSAInterviewPrepAgent.init) in *.
  change (eval ProgressTracker.recommend_next_topic
            (progress_tracker DSAInterviewPrepAgent.init))
    with (Some "Arrays") in Hs. cbv iota beta in Hs.
  assert (Hplan : eval DSAInterviewPrepAgent.get_study_plan w1 =
                  eval DSAInterviewPrepAgent.get_study_plan DSAInterviewPrepAgent.init).
  { by rewrite !get_study_plan_eval, Ht. }
  assert (Hrun : main env DSAInterviewPrepAgent.init =
                 (pair {| ss_status := "session_started";
                          ss_problem :=
                            eval (ProblemGeneratorAgent.generate_problem env "Arrays"
                                    "Medium" "intermediate") DSAInterviewPrepAgent.init;
                          ss_progress :=
                            eval ProgressTracker.get_progress_summary
                              (progress_tracker DSAInterviewPrepAgent.init) |}
                    <$> eval DSAInterviewPrepAgent.get_study_plan DSAInterviewPrepAgent.init,
                  w1)).
  { unfold main. rewrite bind_run. fold w1. rewrite Hs, bind_run.
    rewrite get_study_plan_reads_only, Hplan. reflexivity. }
  unfold eval at 1, exec at 1. rewrite Hrun. cbn [fst snd]. rewrite Ht.
  do 2 eexists. split; [vm_compute; reflexivity|].
  repeat split; reflexivity.
Qed.

(** X17: the recommended topic is a weak area or, when there is none, a
    catalog topic; and it is a covered one only when every catalog topic is
    covered. *)
Theorem recommendation_is_weak_or_uncovered (ud : UserData) :
  ∃ t,
    eval ProgressTracker.recommend_next_topic ud = Some t ∧
    (t ∈ weak_areas ud ∨
     (weak_areas ud = [] ∧ t ∈ ProgressTracker.all_topics ∧
      (t ∈ topics_covered ud →
       ∀ u, u ∈ ProgressTracker.all_topics → u ∈ topics_covered ud))).
Proof.
  unfold ProgressTracker.recommend_next_topic. run_state.
  destruct (weak_areas ud) as [|w ws] eqn:Hw.
  - rewrite bool_decide_eq_false_2 by (intros H; by apply H). cbn [fst].
    destruct (filter _ ProgressTracker.all_topics) as [|u us] eqn:Hu.
    + rewrite bool_decide_eq_false_2 by (intros H; by apply H).
      exists "Arrays". split; [reflexivity|]. right.
      split; [done|]. split; [left|].
      intros _ v Hv. destruct (decide (v ∈ topics_covered ud)) as [|Hn]; [done|].
      assert (Hin : v ∈ filter (fun t => t ∉ topics_covered ud) ProgressTracker.all_topics)
        by (by apply list_elem_of_filter).
      rewrite Hu in Hin. by apply elem_of_nil in Hin.
    + rewrite bool_decide_eq_true_2 by done.
      exists u. split; [reflexivity|]. right.
      assert (Hin : u ∈ filter (fun t => t ∉ topics_covered ud) ProgressTracker.all_topics)
        by (rewrite Hu; left).
      apply list_elem_of_filter in Hin as [Hnot Hcat].
      split; [done|]. split; [done|]. by intros Hcov.
  - rewrite bool_decide_eq_true_2 by done.
    exists w. split; [reflexivity|]. left. left.
Qed.
